(** * TetraCryptPQC-Nexus: storage, crypto and message-channel code, verified

    A shallow embedding of

    - [src/lib/storage.ts]: the in-memory store mirrored to [localStorage]
      (user profile, contacts, messages);
    - the two versions of the crypto module that accompany it (the hybrid
      "Kyber + AES" version and the later "NIST" version): AES-256-GCM
      encryption, hash commitments, signatures and DID generation;
    - [src/components/chat/messagelist.tsx]: the WebSocket receive path and
      its reconnect loop.

    Strings are [string]; a JavaScript string is held with each code unit
    above 0x7F in its two- or three-byte form, so that [=] on the model is
    [===] on the program.  Byte arrays ([Uint8Array], [Buffer]) are
    [list byte].  An [async] function that may reject is a function into
    [result]. *)

From Stdlib Require Import String Ascii List ZArith NArith Lia Bool.
From Stdlib Require Import Init.Byte Strings.Byte.
From stdpp Require Import base option list gmap strings.

Import ListNotations.
Local Open Scope string_scope.
Local Open Scope list_scope.

(** ** Exceptions and fallible computations *)

Inductive exn : Type :=
| TypeError        (* a method or field used on [undefined] / [null] *)
| SyntaxError      (* [JSON.parse] on text that is not JSON *)
| DataError        (* [subtle.importKey] on a key of a wrong length *)
| OperationError   (* [subtle.decrypt] when the tag does not verify *)
| SimdRequired     (* [new Error("WebAssembly SIMD required for PQC.")] *)
| LibraryError.    (* anything an imported library raises *)

Inductive result (A : Type) : Type :=
| Ok (a : A)
| Throw (e : exn).
Arguments Ok {A} a.
Arguments Throw {A} e.

Definition bind {A B} (r : result A) (k : A -> result B) : result B :=
  match r with
  | Ok a => k a
  | Throw e => Throw e
  end.

Declare Scope js_scope.
Delimit Scope js_scope with js.
Notation "'await' x <- r ; k" := (bind r (fun x => k))
  (at level 10, x name, r at level 100, k at level 200) : js_scope.
Local Open Scope js_scope.

Definition returns {A} (r : result A) : Prop := exists a, r = Ok a.

Lemma bind_Ok {A B} (r : result A) (k : A -> result B) b :
  bind r k = Ok b -> exists a, r = Ok a /\ k a = Ok b.
Proof. destruct r as [a|e]; simpl; [eauto | discriminate]. Qed.

(** ** Code units

    The code units of a string of the model: a byte below 0xC0 is a code
    unit by itself, a byte from 0xC0 to 0xDF starts the two-byte form and
    a byte from 0xE0 the three-byte form. *)

Fixpoint code_units (s : string) : list N :=
  match s with
  | EmptyString => []
  | String a r =>
      let n := N_of_ascii a in
      if (n <? 192)%N then n :: code_units r
      else if (n <? 224)%N then
        match r with
        | String b r' =>
            ((n - 192) * 64 + N_of_ascii b mod 64)%N :: code_units r'
        | EmptyString => [n]
        end
      else
        match r with
        | String b (String c r') =>
            ((n - 224) mod 16 * 4096 + (N_of_ascii b mod 64) * 64
             + N_of_ascii c mod 64)%N :: code_units r'
        | _ => [n]
        end
  end.

(** ** Hexadecimal text: [Buffer.from(s, "hex")] and [buf.toString("hex")] *)

Module Hex.

Definition digit (n : N) : ascii :=
  if (n <? 10)%N then ascii_of_N (48 + n) else ascii_of_N (87 + n).

(** Value of a hexadecimal digit, in either case. *)
Definition value (c : ascii) : option N :=
  let n := N_of_ascii c in
  if ((48 <=? n) && (n <=? 57))%N then Some (n - 48)%N
  else if ((97 <=? n) && (n <=? 102))%N then Some (n - 87)%N
  else if ((65 <=? n) && (n <=? 70))%N then Some (n - 55)%N
  else None.

(** [buf.toString("hex")]: two lower-case digits per byte. *)
Fixpoint encode (bs : list byte) : string :=
  match bs with
  | [] => EmptyString
  | b :: rest =>
      let n := Byte.to_N b in
      String (digit (n / 16)) (String (digit (n mod 16)) (encode rest))
  end.

(** The digit a code unit stands for in [Buffer.from(s, "hex")], which
    looks at the low byte of the code unit only. *)
Definition unit_value (u : N) : option N := value (ascii_of_N (u mod 256)).

Fixpoint decode_units (us : list N) : list byte :=
  match us with
  | u1 :: u2 :: rest =>
      match unit_value u1, unit_value u2 with
      | Some h, Some l =>
          match Byte.of_N (16 * h + l) with
          | Some b => b :: decode_units rest
          | None => []
          end
      | _, _ => []
      end
  | _ => []
  end.

(** [Buffer.from(s, "hex")]: pairs of code units are decoded up to the
    first pair that is not hexadecimal; a trailing single code unit is
    left out.  It never raises on a string. *)
Definition decode (s : string) : list byte := decode_units (code_units s).

Definition is_digit (c : ascii) : bool :=
  match value c with Some _ => true | None => false end.

Fixpoint all_digits (s : string) : bool :=
  match s with
  | EmptyString => true
  | String c r => is_digit c && all_digits r
  end.

End Hex.

(** ** [s.split(":")] *)

Definition colon : ascii := Eval cbv in ascii_of_nat 58.

Fixpoint split_colon (s : string) : list string :=
  match s with
  | EmptyString => [EmptyString]
  | String c r =>
      if Ascii.eqb c colon then EmptyString :: split_colon r
      else match split_colon r with
           | h :: t => String c h :: t
           | [] => [String c EmptyString]
           end
  end.

(** The [i]-th colon-separated component of an envelope. *)
Definition component (i : nat) (envelope : string) : string :=
  nth i (split_colon envelope) EmptyString.

Fixpoint has_colon (s : string) : bool :=
  match s with
  | EmptyString => false
  | String c r => Ascii.eqb c colon || has_colon r
  end.

(** ** [JSON.parse]

    Values are kept as a tree; a number keeps its source text (no claim
    below looks inside a number).  String escapes are decoded, a [\uXXXX]
    escape to the form its code unit has in the model's strings. *)

#[local] Unset Elimination Schemes.
Inductive json : Type :=
| JNull
| JBool (b : bool)
| JNumber (lit : string)
| JString (s : string)
| JArray (items : list json)
| JObject (fields : list (string * json)).
#[local] Set Elimination Schemes.

(** A JavaScript value read from parsed data: [None] is [undefined]. *)
Abbreviation jsval := (option json).

Module Json.

Definition dquote : ascii := Eval cbv in ascii_of_nat 34.
Definition backslash : ascii := Eval cbv in ascii_of_nat 92.

Definition is_ws (c : ascii) : bool :=
  let n := N_of_ascii c in
  ((n =? 32) || (n =? 9) || (n =? 10) || (n =? 13))%N.

Fixpoint skip_ws (s : string) : string :=
  match s with
  | String c r => if is_ws c then skip_ws r else s
  | EmptyString => s
  end.

Definition is_dec (c : ascii) : bool :=
  let n := N_of_ascii c in ((48 <=? n) && (n <=? 57))%N.

(** The longest run of decimal digits at the head of [s]. *)
Fixpoint take_digits (s : string) : string * string :=
  match s with
  | String c r =>
      if is_dec c then let (d, r') := take_digits r in (String c d, r')
      else (EmptyString, s)
  | EmptyString => (EmptyString, s)
  end.

(** [strip p s]: [s] without the prefix [p], when it has it. *)
Fixpoint strip (p s : string) : option string :=
  match p, s with
  | EmptyString, _ => Some s
  | String a p', String b s' => if Ascii.eqb a b then strip p' s' else None
  | String _ _, EmptyString => None
  end.

(** One or more digits after a mark ([.], or the exponent's sign). *)
Definition digits1 (s : string) : option (string * string) :=
  let (d, r) := take_digits s in
  match d with EmptyString => None | _ => Some (d, r) end.

Definition parse_frac (s : string) : option (string * string) :=
  match s with
  | String c r =>
      if Ascii.eqb c "."%char then
        match digits1 r with
        | Some (d, r') => Some (String c d, r')
        | None => None
        end
      else Some (EmptyString, s)
  | EmptyString => Some (EmptyString, s)
  end.

Definition parse_exp (s : string) : option (string * string) :=
  match s with
  | String c r =>
      if Ascii.eqb c "e"%char || Ascii.eqb c "E"%char then
        let '(sg, r1) :=
          match r with
          | String c' r' =>
              if Ascii.eqb c' "+"%char || Ascii.eqb c' "-"%char
              then (String c' EmptyString, r') else (EmptyString, r)
          | EmptyString => (EmptyString, r)
          end in
        match digits1 r1 with
        | Some (d, r2) => Some (String c (sg +:+ d), r2)
        | None => None
        end
      else Some (EmptyString, s)
  | EmptyString => Some (EmptyString, s)
  end.

(** A number: an optional minus sign; then a single 0, or a non-zero
    digit and any digits; then an optional fraction (a dot and one or
    more digits); then an optional exponent (e or E, an optional sign,
    one or more digits). *)
Definition parse_number (s : string) : option (string * string) :=
  let '(sg, s1) :=
    match s with
    | String c r =>
        if Ascii.eqb c "-"%char then (String c EmptyString, r)
        else (EmptyString, s)
    | EmptyString => (EmptyString, s)
    end in
  match s1 with
  | String c r =>
      if is_dec c then
        let '(int, s2) :=
          if Ascii.eqb c "0"%char then (String c EmptyString, r)
          else let (d, r') := take_digits r in (String c d, r') in
        match parse_frac s2 with
        | Some (fr, s3) =>
            match parse_exp s3 with
            | Some (ex, s4) => Some (sg +:+ int +:+ fr +:+ ex, s4)
            | None => None
            end
        | None => None
        end
      else None
  | EmptyString => None
  end.

(** The form of a UTF-16 code unit in the model's strings. *)
Definition code_unit (n : N) : string :=
  if (n <? 128)%N then String (ascii_of_N n) EmptyString
  else if (n <? 2048)%N then
    String (ascii_of_N (192 + n / 64))
      (String (ascii_of_N (128 + n mod 64)) EmptyString)
  else
    String (ascii_of_N (224 + n / 4096))
      (String (ascii_of_N (128 + (n / 64) mod 64))
         (String (ascii_of_N (128 + n mod 64)) EmptyString)).

Definition hex4 (a b c d : ascii) : option N :=
  match Hex.value a, Hex.value b, Hex.value c, Hex.value d with
  | Some x, Some y, Some z, Some w => Some (4096 * x + 256 * y + 16 * z + w)%N
  | _, _, _, _ => None
  end.

Definition simple_escape (c : ascii) : option ascii :=
  if Ascii.eqb c dquote then Some dquote
  else if Ascii.eqb c backslash then Some backslash
  else if Ascii.eqb c "/"%char then Some "/"%char
  else if Ascii.eqb c "b"%char then Some (ascii_of_nat 8)
  else if Ascii.eqb c "f"%char then Some (ascii_of_nat 12)
  else if Ascii.eqb c "n"%char then Some (ascii_of_nat 10)
  else if Ascii.eqb c "r"%char then Some (ascii_of_nat 13)
  else if Ascii.eqb c "t"%char then Some (ascii_of_nat 9)
  else None.

(** The characters of a string literal after its opening quote, up to
    the closing quote. *)
Fixpoint parse_chars (s : string) : option (string * string) :=
  match s with
  | EmptyString => None
  | String c r =>
      if Ascii.eqb c dquote then Some (EmptyString, r)
      else if Ascii.eqb c backslash then
        match r with
        | String e r1 =>
            if Ascii.eqb e "u"%char then
              match r1 with
              | String h1 (String h2 (String h3 (String h4 r2))) =>
                  match hex4 h1 h2 h3 h4 with
                  | Some n =>
                      match parse_chars r2 with
                      | Some (str, rest) => Some (code_unit n +:+ str, rest)
                      | None => None
                      end
                  | None => None
                  end
              | _ => None
              end
            else
              match simple_escape e with
              | Some x =>
                  match parse_chars r1 with
                  | Some (str, rest) => Some (String x str, rest)
                  | None => None
                  end
              | None => None
              end
        | EmptyString => None
        end
      else if (N_of_ascii c <? 32)%N then None
      else
        match parse_chars r with
        | Some (str, rest) => Some (String c str, rest)
        | None => None
        end
  end.

(** Array items after the first position: [value (, value)* ]]. *)
Fixpoint parse_items (n : nat) (pv : string -> option (json * string))
    (s : string) : option (list json * string) :=
  match n with
  | 0 => None
  | S n' =>
      match pv s with
      | Some (v, r) =>
          match skip_ws r with
          | String c r' =>
              if Ascii.eqb c ","%char then
                match parse_items n' pv r' with
                | Some (vs, r'') => Some (v :: vs, r'')
                | None => None
                end
              else if Ascii.eqb c "]"%char then Some ([v], r')
              else None
          | EmptyString => None
          end
      | None => None
      end
  end.

(** Object members: [string : value (, string : value)* }]. *)
Fixpoint parse_members (n : nat) (pv : string -> option (json * string))
    (s : string) : option (list (string * json) * string) :=
  match n with
  | 0 => None
  | S n' =>
      match skip_ws s with
      | String q r =>
          if Ascii.eqb q dquote then
            match parse_chars r with
            | Some (k, r1) =>
                match skip_ws r1 with
                | String c r2 =>
                    if Ascii.eqb c colon then
                      match pv r2 with
                      | Some (v, r3) =>
                          match skip_ws r3 with
                          | String d r4 =>
                              if Ascii.eqb d ","%char then
                                match parse_members n' pv r4 with
                                | Some (ms, r5) => Some ((k, v) :: ms, r5)
                                | None => None
                                end
                              else if Ascii.eqb d "}"%char
                              then Some ([(k, v)], r4)
                              else None
                          | EmptyString => None
                          end
                      | None => None
                      end
                    else None
                | EmptyString => None
                end
            | None => None
            end
          else None
      | EmptyString => None
      end
  end.

(** One value, with leading white space.  The fuel bounds the nesting
    depth and the number of items; [parse] gives one more than the
    length of the text, which is never used up since every level and
    every item consumes a character. *)
Fixpoint parse_value (fuel : nat) (s : string) : option (json * string) :=
  match fuel with
  | 0 => None
  | S fuel' =>
      match skip_ws s with
      | EmptyString => None
      | String c r =>
          if Ascii.eqb c "n"%char then
            option_map (fun r' => (JNull, r')) (strip "ull" r)
          else if Ascii.eqb c "t"%char then
            option_map (fun r' => (JBool true, r')) (strip "rue" r)
          else if Ascii.eqb c "f"%char then
            option_map (fun r' => (JBool false, r')) (strip "alse" r)
          else if Ascii.eqb c dquote then
            option_map (fun p => (JString (fst p), snd p)) (parse_chars r)
          else if Ascii.eqb c "["%char then
            match skip_ws r with
            | String c' r' =>
                if Ascii.eqb c' "]"%char then Some (JArray [], r')
                else option_map (fun p => (JArray (fst p), snd p))
                       (parse_items fuel' (parse_value fuel') r)
            | EmptyString => None
            end
          else if Ascii.eqb c "{"%char then
            match skip_ws r with
            | String c' r' =>
                if Ascii.eqb c' "}"%char then Some (JObject [], r')
                else option_map (fun p => (JObject (fst p), snd p))
                       (parse_members fuel' (parse_value fuel') r)
            | EmptyString => None
            end
          else
            option_map (fun p => (JNumber (fst p), snd p))
              (parse_number (String c r))
      end
  end.

(** [JSON.parse(text)] *)
Definition parse (text : string) : result json :=
  match parse_value (S (String.length text)) text with
  | Some (v, r) =>
      match skip_ws r with
      | EmptyString => Ok v
      | String _ _ => Throw SyntaxError
      end
  | None => Throw SyntaxError
  end.

(** Property read [v.k]: the last member named [k] of an object;
    [undefined] on any other value but [null], where it raises. *)
Fixpoint lookup_field (k : string) (fs : list (string * json)) : jsval :=
  match fs with
  | [] => None
  | (k', v) :: rest =>
      match lookup_field k rest with
      | Some v' => Some v'
      | None => if String.eqb k k' then Some v else None
      end
  end.

Definition get (v : json) (k : string) : result jsval :=
  match v with
  | JNull => Throw TypeError
  | JObject fs => Ok (lookup_field k fs)
  | _ => Ok None
  end.

(** Text of a string literal for [s] (no character of [s] escaped):
    used to write frames down. *)
Definition quote (s : string) : string :=
  String dquote (s +:+ String dquote EmptyString).

End Json.

(** ** The platform

    What the crypto module imports and does not define: the random source,
    the text codec, Web Crypto's AES-GCM, the WebAssembly post-quantum
    library, the hash functions and StarkNet's curve.  The code is
    embedded over any such platform. *)

(** The object [wasmCrypto.init()] resolves to. *)
Record PQC : Type := {
  kemKeypair : string -> list byte * list byte;
      (* [kemKeypair(alg)]: [{publicKey, secretKey}] *)
  dsa_sign : string -> list byte -> list byte -> list byte;
      (* [sign(alg, message, secretKey)] *)
  dsa_verify : string -> list byte -> list byte -> list byte -> result bool
      (* [verify(alg, message, signature, publicKey)] *)
}.

Class Platform : Type := {
  getRandomValues : nat -> list byte;
      (* [crypto.getRandomValues(new Uint8Array(n))] *)
  utf8_encode : string -> list byte;
      (* [new TextEncoder().encode(s)], [Buffer.from(s)] *)
  utf8_decode : list byte -> string;
      (* [new TextDecoder().decode(bytes)] *)
  aes_gcm_encrypt : list byte -> list byte -> list byte -> list byte;
      (* [subtle.encrypt({name: "AES-GCM", iv}, key, data)] *)
  aes_gcm_decrypt : list byte -> list byte -> list byte -> result (list byte);
      (* [subtle.decrypt({name: "AES-GCM", iv}, key, data)] *)
  wasm_simd : bool;
      (* [wasmCrypto.simd()] *)
  wasm_init : result PQC;
      (* [wasmCrypto.init()] *)
  sha256 : string -> list byte;
  poseidonHash : list (list byte) -> string;
  computePedersenHash : string -> result string;
      (* [hash.computePedersenHash(message)] *)
  ec_verify : string -> string -> json -> result bool
      (* [ec.verify(publicKey, hashedMessage, parsedSignature)] *)
}.

(** AES keys are 128, 192 or 256 bits long. *)
Definition valid_aes_key (raw : list byte) : bool :=
  let n := length raw in
  (Nat.eqb n 16 || Nat.eqb n 24 || Nat.eqb n 32).

(** [subtle.importKey("raw", raw, "AES-GCM", false, usages)] *)
Definition importKey (raw : list byte) : result (list byte) :=
  if valid_aes_key raw then Ok raw else Throw DataError.

(** A symmetric key as the code receives it: hexadecimal text of an AES
    key. *)
Definition valid_key (key : string) : Prop :=
  valid_aes_key (Hex.decode key) = true.

(** What is required of AES-GCM: opening what was sealed under the same
    key and nonce gives the data back. *)
Class AesGcmCorrect (P : Platform) : Prop :=
  aes_gcm_correct :
    forall k iv m, valid_aes_key k = true ->
      aes_gcm_decrypt k iv (aes_gcm_encrypt k iv m) = Ok m.

Record KeyPair : Type := { publicKey : string; privateKey : string }.

Record Identity : Type :=
  { did_id : string; did_publicKey : string; did_privateKey : string }.

(** The first version of the crypto module: "Hybrid Kyber + AES". *)
Module CryptoHybrid.
Section WithPlatform.
Context {P : Platform}.

Definition pqcInit : result PQC :=
  if negb wasm_simd then Throw SimdRequired else wasm_init.

Definition generateKyberKeypair : result KeyPair :=
  await kem <- pqcInit;
  let (pk, sk) := kemKeypair kem "Kyber" in
  Ok {| publicKey := Hex.encode pk; privateKey := Hex.encode sk |}.

Definition generateDilithiumKeypair : result KeyPair :=
  await kem <- pqcInit;
  let (pk, sk) := kemKeypair kem "Dilithium" in
  Ok {| publicKey := Hex.encode pk; privateKey := Hex.encode sk |}.

Definition signMessage (message privateKey : string) : result string :=
  await dsa <- pqcInit;
  Ok (Hex.encode
        (dsa_sign dsa "Dilithium" (utf8_encode message) (Hex.decode privateKey))).

Definition verifySignature (message signature publicKey : string)
  : result bool :=
  await dsa <- pqcInit;
  dsa_verify dsa "Dilithium" (utf8_encode message)
    (Hex.decode signature) (Hex.decode publicKey).

Definition encryptAES (message key : string) : result string :=
  let iv := getRandomValues 12 in
  let encodedMessage := utf8_encode message in
  await cryptoKey <- importKey (firstn 32 (Hex.decode key));
  let encrypted := aes_gcm_encrypt cryptoKey iv encodedMessage in
  await kp <- generateKyberKeypair;
  let hybridKey := Hex.encode (utf8_encode (publicKey kp)) in
  Ok (Hex.encode iv +:+ ":" +:+ Hex.encode encrypted +:+ ":" +:+ hybridKey).

Definition decryptAES (encryptedMessage key : string) : result string :=
  match split_colon encryptedMessage with
  | ivHex :: encryptedHex :: _ =>
      let iv := Hex.decode ivHex in
      let encrypted := Hex.decode encryptedHex in
      await cryptoKey <- importKey (Hex.decode key);
      await decrypted <- aes_gcm_decrypt cryptoKey iv encrypted;
      Ok (utf8_decode decrypted)
  | _ => Throw TypeError   (* [Buffer.from(undefined, "hex")] *)
  end.

Definition generateZKProof (message : string) : string :=
  poseidonHash [sha256 message].

(** [proof?: string]: [None] is a call without the second argument. *)
Definition verifyZKProof (message : string) (proof : option string) : bool :=
  match proof with
  | Some p => String.eqb p (poseidonHash [sha256 message])
  | None => false
  end.

Definition verifyStarkNetSignature (message signature publicKey : string)
  : result bool :=
  await parsedSignature <- Json.parse signature;
  await hashedMessage <- computePedersenHash message;
  ec_verify publicKey hashedMessage parsedSignature.

Definition generateDID : result Identity :=
  await kp <- generateKyberKeypair;
  Ok {| did_id := "did:tetracrypt:" +:+ substring 0 16 (publicKey kp);
        did_publicKey := publicKey kp;
        did_privateKey := privateKey kp |}.

Definition generateSessionKey : string :=
  Hex.encode (getRandomValues 32).

End WithPlatform.
End CryptoHybrid.

(** The second version of the crypto module: "NIST FIPS 205/206". *)
Module CryptoNist.
Section WithPlatform.
Context {P : Platform}.

Definition pqcInit : result PQC :=
  if negb wasm_simd then Throw SimdRequired else wasm_init.

Definition generateMLKEMKeypair : result KeyPair :=
  await kem <- pqcInit;
  let (pk, sk) := kemKeypair kem "ML-KEM-1024" in
  Ok {| publicKey := Hex.encode pk; privateKey := Hex.encode sk |}.

Definition generateBIKEKeypair : result KeyPair :=
  await kem <- pqcInit;
  let (pk, sk) := kemKeypair kem "BIKE" in
  Ok {| publicKey := Hex.encode pk; privateKey := Hex.encode sk |}.

Definition generateKyberKeypair : result KeyPair := generateMLKEMKeypair.
Definition generateDilithiumKeypair : result KeyPair := generateBIKEKeypair.
Definition generateFalconKeypair : result KeyPair := generateBIKEKeypair.
Definition generateSLHDSAKeypair : result KeyPair := generateBIKEKeypair.

Definition signMessage (message privateKey : string) : result string :=
  await dsa <- pqcInit;
  Ok (Hex.encode
        (dsa_sign dsa "SLH-DSA-SHAKE-256f" (utf8_encode message)
           (Hex.decode privateKey))).

Definition verifySignature (message signature publicKey : string)
  : result bool :=
  await dsa <- pqcInit;
  dsa_verify dsa "SLH-DSA-SHAKE-256f" (utf8_encode message)
    (Hex.decode signature) (Hex.decode publicKey).

Definition encryptAES (message key : string) : result string :=
  let iv := getRandomValues 12 in
  let encodedMessage := utf8_encode message in
  await cryptoKey <- importKey (Hex.decode key);
  let encrypted := aes_gcm_encrypt cryptoKey iv encodedMessage in
  Ok (Hex.encode iv +:+ ":" +:+ Hex.encode encrypted).

Definition decryptAES (encryptedMessage key : string) : result string :=
  match split_colon encryptedMessage with
  | ivHex :: encryptedHex :: _ =>
      let iv := Hex.decode ivHex in
      let encrypted := Hex.decode encryptedHex in
      await cryptoKey <- importKey (Hex.decode key);
      await decrypted <- aes_gcm_decrypt cryptoKey iv encrypted;
      Ok (utf8_decode decrypted)
  | _ => Throw TypeError
  end.

Definition generateZKProof (message : string) : string :=
  poseidonHash [sha256 message].

Definition verifyZKProof (message : string) (proof : option string) : bool :=
  match proof with
  | Some p => String.eqb p (poseidonHash [sha256 message])
  | None => false
  end.

Definition verifyStarkNetSignature (message signature publicKey : string)
  : result bool :=
  await parsedSignature <- Json.parse signature;
  await hashedMessage <- computePedersenHash message;
  ec_verify publicKey hashedMessage parsedSignature.

Definition generateDID : result Identity :=
  await kp <- generateMLKEMKeypair;
  Ok {| did_id := "did:tetracrypt:" +:+ substring 0 16 (publicKey kp);
        did_publicKey := publicKey kp;
        did_privateKey := privateKey kp |}.

End WithPlatform.
End CryptoNist.

(** [r] is an identity that [generateDID] returns on platform [P], in
    either version of the module. *)
Definition generated (P : Platform) (r : Identity) : Prop :=
  CryptoHybrid.generateDID = Ok r \/ CryptoNist.generateDID = Ok r.

(** What is required of the library's signatures, for the key pair it
    draws for [alg]: it verifies what it signs. *)
Definition signs_correctly (lib : PQC) (alg : string) : Prop :=
  forall m : list byte,
    dsa_verify lib alg m
      (dsa_sign lib alg m (snd (kemKeypair lib alg))) (fst (kemKeypair lib alg))
    = Ok true.

(** ** A platform to run the code on

    The text codec follows the Encoding Standard; the cipher, the hash
    functions and the post-quantum library are stand-ins with the
    interface of the real ones, so that the embedded code can be
    evaluated on concrete inputs. *)

Module TextCodec.

Definition byte_of (n : N) : byte :=
  match Byte.of_N (n mod 256) with Some b => b | None => x00 end.

(** The code units of a string of the model. *)
Fixpoint units (s : string) : list N :=
  match s with
  | EmptyString => []
  | String a r =>
      let n := N_of_ascii a in
      if (n <? 192)%N then n :: units r
      else if (n <? 224)%N then
        match r with
        | String b r' =>
            ((n - 192) * 64 + N_of_ascii b mod 64)%N :: units r'
        | EmptyString => [n]
        end
      else
        match r with
        | String b (String c r') =>
            ((n - 224) mod 16 * 4096 + (N_of_ascii b mod 64) * 64
             + N_of_ascii c mod 64)%N :: units r'
        | _ => [n]
        end
  end.

Definition of_units (us : list N) : string :=
  fold_right (fun u s => Json.code_unit u +:+ s) EmptyString us.

Definition is_high (u : N) : bool := ((55296 <=? u) && (u <=? 56319))%N.
Definition is_low (u : N) : bool := ((56320 <=? u) && (u <=? 57343))%N.

(** Code units to scalar values: a surrogate pair is one scalar value,
    a surrogate on its own is replaced by U+FFFD. *)
Fixpoint scalars (us : list N) : list N :=
  match us with
  | [] => []
  | u :: rest =>
      if is_high u then
        match rest with
        | l :: rest' =>
            if is_low l
            then (65536 + (u - 55296) * 1024 + (l - 56320))%N :: scalars rest'
            else 65533%N :: scalars rest
        | [] => [65533%N]
        end
      else if is_low u then 65533%N :: scalars rest
      else u :: scalars rest
  end.

Definition utf8_of_scalar (c : N) : list byte :=
  if (c <? 128)%N then [byte_of c]
  else if (c <? 2048)%N then [byte_of (192 + c / 64); byte_of (128 + c mod 64)]
  else if (c <? 65536)%N then
    [byte_of (224 + c / 4096); byte_of (128 + (c / 64) mod 64);
     byte_of (128 + c mod 64)]
  else
    [byte_of (240 + c / 262144); byte_of (128 + (c / 4096) mod 64);
     byte_of (128 + (c / 64) mod 64); byte_of (128 + c mod 64)].

(** [new TextEncoder().encode(s)] *)
Definition encode (s : string) : list byte :=
  concat (map utf8_of_scalar (scalars (units s))).

(** The state of the standard's UTF-8 decoder. *)
Record decoder : Type :=
  { code_point : N; seen : N; needed : N; lower : N; upper : N }.

Definition idle : decoder :=
  {| code_point := 0; seen := 0; needed := 0; lower := 128; upper := 191 |}.

Definition lead (b : N) : decoder * list N :=
  if (b <? 128)%N then (idle, [b])
  else if ((194 <=? b) && (b <=? 223))%N then
    ({| code_point := b mod 32; seen := 0; needed := 1;
        lower := 128; upper := 191 |}, [])
  else if ((224 <=? b) && (b <=? 239))%N then
    ({| code_point := b mod 16; seen := 0; needed := 2;
        lower := if (b =? 224)%N then 160 else 128;
        upper := if (b =? 237)%N then 159 else 191 |}, [])
  else if ((240 <=? b) && (b <=? 244))%N then
    ({| code_point := b mod 8; seen := 0; needed := 3;
        lower := if (b =? 240)%N then 144 else 128;
        upper := if (b =? 244)%N then 143 else 191 |}, [])
  else (idle, [65533%N]).

Definition step (d : decoder) (b : N) : decoder * list N :=
  if (needed d =? 0)%N then lead b
  else if ((b <? lower d) || (upper d <? b))%N then
    let (d', out) := lead b in (d', 65533%N :: out)
  else
    let c := (code_point d * 64 + b mod 64)%N in
    if (seen d + 1 =? needed d)%N then (idle, [c])
    else ({| code_point := c; seen := seen d + 1; needed := needed d;
             lower := 128; upper := 191 |}, []).

Fixpoint run (d : decoder) (bs : list N) : list N :=
  match bs with
  | [] => if (needed d =? 0)%N then [] else [65533%N]
  | b :: r => let (d', out) := step d b in out ++ run d' r
  end.

Definition units_of_scalar (c : N) : list N :=
  if (c <? 65536)%N then [c]
  else [(55296 + (c - 65536) / 1024)%N; (56320 + (c - 65536) mod 1024)%N].

(** A decoder made with [new TextDecoder()] leaves a leading byte order
    mark out of its result. *)
Definition strip_bom (cs : list N) : list N :=
  match cs with
  | c :: r => if (c =? 65279)%N then r else cs
  | [] => []
  end.

(** [new TextDecoder().decode(bytes)] *)
Definition decode (bs : list byte) : string :=
  of_units (concat (map units_of_scalar (strip_bom (run idle (map Byte.to_N bs))))).

End TextCodec.

Module TestPlatform.

Fixpoint bytes_eqb (a b : list byte) : bool :=
  match a, b with
  | [], [] => true
  | x :: a', y :: b' => Byte.eqb x y && bytes_eqb a' b'
  | _, _ => false
  end.

(** A 16-byte tag made of the key and the nonce. *)
Definition tag (k iv : list byte) : list byte :=
  firstn 16 (k ++ iv ++ repeat x00 16).

Definition seal (k iv m : list byte) : list byte := m ++ tag k iv.

Definition open (k iv c : list byte) : result (list byte) :=
  let n := length c - 16 in
  if bytes_eqb (skipn n c) (tag k iv) then Ok (firstn n c)
  else Throw OperationError.

(** Text that reads as a number: decimal digits, or [0x] and
    hexadecimal digits.  The stand-in for the Pedersen hash raises on any
    other message, as the hash of the library does. *)
Definition is_numeral (m : string) : bool :=
  match m with
  | EmptyString => false
  | String a r =>
      if Ascii.eqb a "0"%char then
        match r with
        | EmptyString => true
        | String b r' =>
            if Ascii.eqb b "x"%char
            then negb (String.eqb r' EmptyString) && Hex.all_digits r'
            else forallb Json.is_dec (list_ascii_of_string r)
        end
      else forallb Json.is_dec (list_ascii_of_string m)
  end.

(** The library draws the key pair [(seed ++ alg, alg ++ seed)]. *)
Definition pqc (seed : list byte) : PQC :=
  {| kemKeypair alg :=
       (seed ++ list_byte_of_string alg, list_byte_of_string alg ++ seed);
     dsa_sign alg m sk := sk ++ m;
     dsa_verify alg m sg pk := Ok (bytes_eqb sg (pk ++ m)) |}.

Definition platform (seed : list byte) : Platform :=
  {| getRandomValues n := repeat x2a n;
     utf8_encode := TextCodec.encode;
     utf8_decode := TextCodec.decode;
     aes_gcm_encrypt := seal;
     aes_gcm_decrypt := open;
     wasm_simd := true;
     wasm_init := Ok (pqc seed);
     sha256 := TextCodec.encode;
     poseidonHash l := Hex.encode (concat l);
     computePedersenHash m :=
       if is_numeral m then Ok m else Throw LibraryError;
     ec_verify pk h sg := Ok false |}.

(** 32 bytes of value 17, in hexadecimal. *)
Definition key256' : string :=
  "1111111111111111111111111111111111111111111111111111111111111111".

(** 32 zero bytes, in hexadecimal. *)
Definition key256 : string :=
  "0000000000000000000000000000000000000000000000000000000000000000".

(** The code unit U+D800 (a high surrogate) on its own. *)
Definition lone_surrogate : string := Eval cbv in Json.code_unit 55296.

(** U+FEFF followed by [hi]. *)
Definition bom_hi : string := Eval cbv in (Json.code_unit 65279 +:+ "hi").

End TestPlatform.

(** ** [src/lib/storage.ts] *)

Module Storage.

(** Modelled from the spec: the type [UserProfile] of [./storage-types],
    which is not among the sources.  The fields are the ones the sources
    read from a profile. *)
Record UserProfile : Type :=
  { userId : string; sessionKey : string; starknetAddress : string }.

(** Modelled from the spec: the type [Message] of [./storage-types], which
    is not among the sources.  The fields are those of the message in the
    spec's data model; [status] is the string the code assigns. *)
Record Message : Type := {
  id : string;
  sender : string;
  receiver : string;
  content : string;
  timestamp : Z;
  status : string
}.

(** A contact is used as a plain object: its fields are read by name and
    it is copied with the spread operator.  A field that is absent reads
    as [undefined]. *)
Abbreviation Contact := (gmap string string).

(** [localStorage], by entry; an entry holds the value whose JSON text
    was stored under the key. *)
Record LocalStorage : Type := {
  ls_userProfile : option UserProfile;
  ls_contacts : option (list Contact);
  ls_messages : option (list Message)
}.

(** The module's [storage] object, with [localStorage] beside it. *)
Record State : Type := {
  currentUser : option UserProfile;
  contacts : list Contact;
  messages : list Message;
  localStorage : LocalStorage
}.

Definition set_ls_userProfile (v : option UserProfile) (l : LocalStorage) :=
  {| ls_userProfile := v; ls_contacts := ls_contacts l;
     ls_messages := ls_messages l |}.
Definition set_ls_contacts (v : option (list Contact)) (l : LocalStorage) :=
  {| ls_userProfile := ls_userProfile l; ls_contacts := v;
     ls_messages := ls_messages l |}.
Definition set_ls_messages (v : option (list Message)) (l : LocalStorage) :=
  {| ls_userProfile := ls_userProfile l; ls_contacts := ls_contacts l;
     ls_messages := v |}.

Definition saveUserProfile (profile : UserProfile) (st : State) : State :=
  {| currentUser := Some profile;
     contacts := contacts st;
     messages := messages st;
     localStorage := set_ls_userProfile (Some profile) (localStorage st) |}.

Definition getUserProfile (st : State) : option UserProfile * State :=
  match currentUser st with
  | Some u => (Some u, st)
  | None =>
      match ls_userProfile (localStorage st) with
      | Some u =>
          (Some u,
           {| currentUser := Some u; contacts := contacts st;
              messages := messages st; localStorage := localStorage st |})
      | None => (None, st)
      end
  end.

(** [findIndex(c => c.id === contact.id)] *)
Fixpoint findIndex (p : Contact -> bool) (l : list Contact) : option nat :=
  match l with
  | [] => None
  | c :: r => if p c then Some 0 else option_map S (findIndex p r)
  end.

Definition same_id (a b : Contact) : bool :=
  bool_decide (a !! "id" = b !! "id").

Definition saveContact (contact : Contact) (st : State) : State :=
  let contacts' :=
    match findIndex (fun c => same_id c contact) (contacts st) with
    | Some existingIndex => <[existingIndex := contact]> (contacts st)
    | None => contacts st ++ [contact]
    end in
  {| currentUser := currentUser st;
     contacts := contacts';
     messages := messages st;
     localStorage := set_ls_contacts (Some contacts') (localStorage st) |}.

(** A string field in a condition: absent and empty are false. *)
Definition truthy (v : option string) : bool :=
  match v with
  | Some s => negb (String.eqb s "")
  | None => false
  end.

(** [v || ""] *)
Definition or_empty (v : option string) : string :=
  match v with
  | Some s => if truthy v then s else ""
  | None => ""
  end.

(** The callback of the [map] in [getContacts]. *)
Definition ensureSignatureKey (contact : Contact) : Contact :=
  if negb (truthy (contact !! "signatureKey")) then
    <["signatureKey" := or_empty (contact !! "publicKey")]> contact
  else contact.

(** The contacts [getContacts] works on: the ones in memory, or, when
    there is none, the ones of [localStorage]. *)
Definition loadContacts (st : State) : list Contact :=
  match contacts st with
  | [] =>
      match ls_contacts (localStorage st) with
      | Some stored => stored
      | None => []
      end
  | _ :: _ => contacts st
  end.

Definition getContacts (st : State) : list Contact * State :=
  let contacts' := map ensureSignatureKey (loadContacts st) in
  (contacts',
   {| currentUser := currentUser st; contacts := contacts';
      messages := messages st; localStorage := localStorage st |}).

Definition getContactById (id : string) (st : State)
  : option Contact * State :=
  let (cs, st') := getContacts st in
  (List.find (fun contact => bool_decide (contact !! "id" = Some id)) cs, st').

Definition addMessage (message : Message) (st : State) : State :=
  let messages' := messages st ++ [message] in
  {| currentUser := currentUser st; contacts := contacts st;
     messages := messages';
     localStorage := set_ls_messages (Some messages') (localStorage st) |}.

Definition loadMessages (st : State) : list Message :=
  match messages st with
  | [] =>
      match ls_messages (localStorage st) with
      | Some stored => stored
      | None => []
      end
  | _ :: _ => messages st
  end.

Definition getMessages (userId1 userId2 : string) (st : State)
  : list Message * State :=
  let messages' := loadMessages st in
  (List.filter
     (fun message =>
        (String.eqb (sender message) userId1 && String.eqb (receiver message) userId2)
        || (String.eqb (sender message) userId2 && String.eqb (receiver message) userId1))
     messages',
   {| currentUser := currentUser st; contacts := contacts st;
      messages := messages'; localStorage := localStorage st |}).

Definition getMessagesForContact (contactId : string) (st : State)
  : list Message * State :=
  let (user, st1) := getUserProfile st in
  match user with
  | None => ([], st1)
  | Some u => getMessages (userId u) contactId st1
  end.

Definition set_status (s : string) (m : Message) : Message :=
  {| id := id m; sender := sender m; receiver := receiver m;
     content := content m; timestamp := timestamp m; status := s |}.

(** The callback of the [forEach] in [markMessagesAsRead]. *)
Definition markIfFrom (contactId : string) (user : UserProfile)
    (message : Message) : Message :=
  if String.eqb (sender message) contactId
     && String.eqb (receiver message) (userId user)
  then set_status "read" message
  else message.

Definition markMessagesAsRead (contactId : string) (st : State) : State :=
  let (user, st1) := getUserProfile st in
  match user with
  | None => st1
  | Some u =>
      let messages' := map (markIfFrom contactId u) (messages st1) in
      {| currentUser := currentUser st1; contacts := contacts st1;
         messages := messages';
         localStorage := set_ls_messages (Some messages') (localStorage st1) |}
  end.

Definition clearAllData (st : State) : State :=
  {| currentUser := None; contacts := []; messages := [];
     localStorage :=
       {| ls_userProfile := None; ls_contacts := None; ls_messages := None |} |}.

Definition clearStorage (st : State) : State := clearAllData st.

(** The module's [storage] object as the module leaves it when it is
    loaded, beside the [localStorage] of the page. *)
Definition init (ls : LocalStorage) : State :=
  {| currentUser := None; contacts := []; messages := []; localStorage := ls |}.

(** The page is loaded again: [localStorage] stays, the memory is new. *)
Definition reload (st : State) : State := init (localStorage st).

(** The test of the [filter] in [getMessages]. *)
Definition between (userId1 userId2 : string) (message : Message) : bool :=
  (String.eqb (sender message) userId1 && String.eqb (receiver message) userId2)
  || (String.eqb (sender message) userId2 && String.eqb (receiver message) userId1).

(** The [id] fields of a list of contacts, in order. *)
Definition ids (l : list Contact) : list (option string) :=
  map (fun c : Contact => c !! "id") l.

(** The test of the [find] in [getContactById]. *)
Definition has_id (id : string) (contact : Contact) : bool :=
  bool_decide (contact !! "id" = Some id).

End Storage.

(** ** [src/components/chat/messagelist.tsx] *)

(** What the component imports from [@/lib/crypto]. *)
Class Crypto : Type := {
  decryptAES : string -> string -> result string;
  verifyZKProof : string -> option string -> bool
}.

Definition cryptoNist (P : Platform) : Crypto :=
  {| decryptAES := CryptoNist.decryptAES;
     verifyZKProof := CryptoNist.verifyZKProof |}.

Definition cryptoHybrid (P : Platform) : Crypto :=
  {| decryptAES := CryptoHybrid.decryptAES;
     verifyZKProof := CryptoHybrid.verifyZKProof |}.

Module MessageList.

(** The component's own [Message]; [sender] holds what the frame gives. *)
Record Message : Type :=
  { sender : jsval; content : string; timestamp : Z }.

(** The component's state: [messages], the ref that mirrors it, and
    [loading]. *)
Record View : Type := {
  messages : list Message;
  messagesRef : list Message;
  loading : bool
}.

(** [v === s] for a string [s]. *)
Definition is_string (v : jsval) (s : string) : bool :=
  match v with
  | Some (JString s') => String.eqb s' s
  | _ => false
  end.

(** A value handed to a function of the crypto module, which works on
    strings: on any other value its first step ([split], [sha256])
    raises. *)
Definition as_string (v : jsval) : result string :=
  match v with
  | Some (JString s) => Ok s
  | _ => Throw TypeError
  end.

(** The updater passed to [setMessages], applied. *)
Definition append_message (m : Message) (v : View) : View :=
  let updatedMessages := messages v ++ [m] in
  {| messages := updatedMessages; messagesRef := updatedMessages;
     loading := loading v |}.

Definition set_loading (b : bool) (v : View) : View :=
  {| messages := messages v; messagesRef := messagesRef v; loading := b |}.

Section Handlers.
Context {C : Crypto}.

(** The body of the [try] block of [websocket.onmessage]. *)
Definition receive (user : Storage.UserProfile) (now : Z)
    (event_data : string) (v : View) : result View :=
  await data <- Json.parse event_data;
  await event <- Json.get data "event";
  if is_string event "MessageSent" then
    await encrypted_content <- Json.get data "encrypted_content";
    if existsb (fun msg => is_string encrypted_content (content msg))
         (messagesRef v)
    then Ok v
    else
      await c <- as_string encrypted_content;
      if negb (verifyZKProof c None) then Ok v
      else
        await decryptedContent <- decryptAES c (Storage.sessionKey user);
        await sender <- Json.get data "sender";
        Ok (append_message
              {| sender := sender; content := decryptedContent;
                 timestamp := now |} v)
  else Ok v.

(** [websocket.onmessage]: the [catch] logs the error and goes on. *)
Definition onmessage (user : Storage.UserProfile) (now : Z)
    (event_data : string) (v : View) : View :=
  match receive user now event_data v with
  | Ok v' => v'
  | Throw _ => v
  end.

(** The body of the [try] block of [fetchMessages]; [response] is what
    the contract call gives. *)
Definition fetch (user : option Storage.UserProfile) (now : Z)
    (response : result json) (v : View) : result View :=
  await u <- match user with
             | Some u => Ok u
             | None => Throw TypeError   (* [user.starknetAddress] *)
             end;
  await r <- response;
  await encryptedContent <- Json.get r "encrypted_content";
  await c <- as_string encryptedContent;
  if negb (verifyZKProof c None) then Ok v
  else
    await decryptedMessage <- decryptAES c (Storage.sessionKey u);
    Ok (append_message
          {| sender := Some (JString "You"); content := decryptedMessage;
             timestamp := now |} v).

Definition fetchMessages (user : option Storage.UserProfile) (now : Z)
    (response : result json) (v : View) : View :=
  let v1 := set_loading true v in
  set_loading false
    match fetch user now response v1 with
    | Ok v' => v'
    | Throw _ => v1
    end.

End Handlers.

(** The proof verification of a frame, as [onmessage] runs it: the call
    [verifyZKProof(data.encrypted_content)]. *)
Definition proof_verified {C : Crypto} (event_data : string) : bool :=
  match Json.parse event_data with
  | Ok data =>
      match Json.get data "encrypted_content" with
      | Ok (Some (JString c)) => verifyZKProof c None
      | _ => false
      end
  | Throw _ => false
  end.

(** *** The connection and its reconnect loop *)

Inductive ReadyState : Type := CONNECTING | OPEN | CLOSED.

(** Every socket made so far with its state, the component's [ws], the
    [setTimeout(connectWebSocket, 3000)] callbacks not yet run, and what
    was sent on which socket. *)
Record Channel : Type := {
  sockets : list ReadyState;
  ws : option nat;
  timers : nat;
  sent : list (nat * string)
}.

Definition initial : Channel :=
  {| sockets := []; ws := None; timers := 0; sent := [] |}.

Definition subscription : string :=
  "{" +:+ Json.quote "contract_address" +:+ ":"
      +:+ Json.quote "0xYourStarkNetMessagingContractAddress" +:+ ","
      +:+ Json.quote "event" +:+ ":" +:+ Json.quote "MessageSent" +:+ "}".

(** [connectWebSocket]: a new socket, its handlers set, kept in [ws]. *)
Definition connectWebSocket (ch : Channel) : Channel :=
  {| sockets := sockets ch ++ [CONNECTING];
     ws := Some (length (sockets ch));
     timers := timers ch;
     sent := sent ch |}.

(** [websocket.onopen] of socket [i]. *)
Definition onopen (i : nat) (ch : Channel) : Channel :=
  {| sockets := sockets ch; ws := ws ch; timers := timers ch;
     sent := sent ch ++ [(i, subscription)] |}.

(** [websocket.onclose]: it is given no reason and asks for none. *)
Definition onclose (ch : Channel) : Channel :=
  {| sockets := sockets ch; ws := ws ch; timers := S (timers ch);
     sent := sent ch |}.

Definition set_state (i : nat) (s : ReadyState) (ch : Channel) : Channel :=
  {| sockets := <[i := s]> (sockets ch); ws := ws ch; timers := timers ch;
     sent := sent ch |}.

(** The transport opens socket [i]. *)
Definition transport_open (i : nat) (ch : Channel) : Channel :=
  match sockets ch !! i with
  | Some CONNECTING => onopen i (set_state i OPEN ch)
  | _ => ch
  end.

(** Socket [i] is closed from outside: an error, or the peer. *)
Definition transport_close (i : nat) (ch : Channel) : Channel :=
  match sockets ch !! i with
  | Some CONNECTING | Some OPEN => onclose (set_state i CLOSED ch)
  | _ => ch
  end.

(** [socket.close()] on socket [i]: the socket closes, and its close
    event runs the handler, as any close does. *)
Definition close (i : nat) (ch : Channel) : Channel :=
  match sockets ch !! i with
  | Some CONNECTING | Some OPEN => onclose (set_state i CLOSED ch)
  | _ => ch
  end.

(** A pending [setTimeout] callback runs. *)
Definition timer_fire (ch : Channel) : Channel :=
  match timers ch with
  | S n =>
      connectWebSocket
        {| sockets := sockets ch; ws := ws ch; timers := n; sent := sent ch |}
  | 0 => ch
  end.

(** The effect: nothing without a user, else a first connection. *)
Definition effect (user : option Storage.UserProfile) (ch : Channel)
  : Channel :=
  match user with
  | None => ch
  | Some _ => connectWebSocket ch
  end.

(** The effect's cleanup, [if (ws) ws.close()], with the [ws] of the
    render in which the effect ran. *)
Definition cleanup (ws_at_render : option nat) (ch : Channel) : Channel :=
  match ws_at_render with
  | Some i => close i ch
  | None => ch
  end.

Definition disconnected (ch : Channel) : Prop :=
  Forall (fun s => s = CLOSED) (sockets ch).

(** A frame as the component expects it. *)
Definition frame (encrypted_content sender : string) : string :=
  "{" +:+ Json.quote "event" +:+ ":" +:+ Json.quote "MessageSent" +:+ ","
      +:+ Json.quote "encrypted_content" +:+ ":"
      +:+ Json.quote encrypted_content +:+ ","
      +:+ Json.quote "sender" +:+ ":" +:+ Json.quote sender +:+ "}".

(** What happens to the channel: the transport opens or closes a socket,
    the component closes one, a reconnect timer runs. *)
Inductive Event : Type :=
| TransportOpen (i : nat)
| TransportClose (i : nat)
| Close (i : nat)
| TimerFire.

Definition handle (e : Event) (ch : Channel) : Channel :=
  match e with
  | TransportOpen i => transport_open i ch
  | TransportClose i => transport_close i ch
  | Close i => close i ch
  | TimerFire => timer_fire ch
  end.

Definition run (es : list Event) (ch : Channel) : Channel :=
  fold_left (fun c e => handle e c) es ch.

Definition is_live (s : ReadyState) : bool :=
  match s with CLOSED => false | _ => true end.

(** The sockets that are connecting or open. *)
Definition live (ch : Channel) : nat :=
  length (List.filter is_live (sockets ch)).

(** *** The component around the channel

    The effect depends on [user]: it runs at the first render and again
    whenever [user] changes, after the cleanup that the run before it
    returned.  A run without a user returns no cleanup.  The cleanup of a
    run closes the socket that [ws] held in the render of that run. *)
Record Component : Type := {
  channel : Channel;
  teardown : option (option nat);
      (* the cleanup of the last run of the effect, by the [ws] it holds *)
  mounted : bool
}.

Definition cleanup_of (user : option Storage.UserProfile) (ws_at_render : option nat)
  : option (option nat) :=
  match user with
  | Some _ => Some ws_at_render
  | None => None
  end.

(** The first render: [ws] is [null]. *)
Definition mount (user : option Storage.UserProfile) : Component :=
  {| channel := effect user initial;
     teardown := cleanup_of user (ws initial);
     mounted := true |}.

Definition run_teardown (c : Component) : Channel :=
  match teardown c with
  | Some ws_at_render => cleanup ws_at_render (channel c)
  | None => channel c
  end.

(** What happens to the component: a render with another [user], the
    unmount, and what the transport and the timers do. *)
Inductive Action : Type :=
| Rerender (user : option Storage.UserProfile)
| Unmount
| SocketOpens (i : nat)
| SocketCloses (i : nat)
| TimerRuns.

Definition with_channel (ch : Channel) (c : Component) : Component :=
  {| channel := ch; teardown := teardown c; mounted := mounted c |}.

Definition act (a : Action) (c : Component) : Component :=
  match a with
  | Rerender user =>
      if mounted c then
        {| channel := effect user (run_teardown c);
           teardown := cleanup_of user (ws (channel c));
           mounted := true |}
      else c
  | Unmount =>
      if mounted c then
        {| channel := run_teardown c; teardown := None; mounted := false |}
      else c
  | SocketOpens i => with_channel (transport_open i (channel c)) c
  | SocketCloses i => with_channel (transport_close i (channel c)) c
  | TimerRuns => with_channel (timer_fire (channel c)) c
  end.

Definition play (acts : list Action) (c : Component) : Component :=
  fold_left (fun c a => act a c) acts c.

(** The runs of the effect with a user among [acts], on a component that
    is mounted or not. *)
Fixpoint effect_runs (is_mounted : bool) (acts : list Action) : nat :=
  match acts with
  | [] => 0
  | Rerender (Some _) :: rest =>
      (if is_mounted then 1 else 0) + effect_runs is_mounted rest
  | Unmount :: rest => effect_runs false rest
  | _ :: rest => effect_runs is_mounted rest
  end.

(** The sockets on which the subscription was sent, in order. *)
Definition subscribed (ch : Channel) : list nat := map fst (sent ch).

(** Every socket subscribed at most once and after it opened, every open
    socket subscribed, and nothing but the subscription was sent. *)
Definition subscribed_on_open (ch : Channel) : Prop :=
  NoDup (subscribed ch) /\
  (forall i, In i (subscribed ch) ->
     sockets ch !! i = Some OPEN \/ sockets ch !! i = Some CLOSED) /\
  (forall i, sockets ch !! i = Some OPEN -> In i (subscribed ch)) /\
  (forall x, In x (sent ch) -> snd x = subscription).

End MessageList.

Module TestChannel.

Definition bob : Storage.UserProfile :=
  {| Storage.userId := "bob";
     Storage.sessionKey := TestPlatform.key256;
     Storage.starknetAddress := "0x0b0b" |}.

(** ["hello"] encrypted for Bob on the test platform. *)
Definition envelope : string :=
  Eval vm_compute in
    match CryptoNist.encryptAES (P := TestPlatform.platform []) "hello"
            TestPlatform.key256 with
    | Ok c => c
    | Throw _ => EmptyString
    end.

(** The crypto module with a proof check that lets everything through. *)
Definition permissive : Crypto :=
  {| decryptAES := CryptoNist.decryptAES (P := TestPlatform.platform []);
     verifyZKProof := fun _ _ => true |}.

Definition empty : MessageList.View :=
  {| MessageList.messages := []; MessageList.messagesRef := [];
     MessageList.loading := false |}.

End TestChannel.

(** ** [src/components/chat/MessageInput.tsx] *)

Module MessageInput.

(** The white space and the line terminators of ECMAScript, by the bytes
    their code unit has in the model's strings: U+0009 to U+000D and
    U+0020; U+00A0; U+1680, U+2000 to U+200A, U+2028, U+2029, U+202F,
    U+205F, U+3000 and U+FEFF. *)
Definition ws1 (a : ascii) : bool :=
  let n := N_of_ascii a in
  (((9 <=? n) && (n <=? 13)) || (n =? 32))%N.

Definition ws2 (a b : ascii) : bool :=
  ((N_of_ascii a =? 194) && (N_of_ascii b =? 160))%N.

Definition ws3 (a b c : ascii) : bool :=
  let n := N_of_ascii a in
  let m := N_of_ascii b in
  let k := N_of_ascii c in
  (((n =? 225) && (m =? 154) && (k =? 128))
   || ((n =? 226) && (m =? 128)
       && (((128 <=? k) && (k <=? 138)) || (k =? 168) || (k =? 169)
           || (k =? 175)))
   || ((n =? 226) && (m =? 129) && (k =? 159))
   || ((n =? 227) && (m =? 128) && (k =? 128))
   || ((n =? 239) && (m =? 187) && (k =? 191)))%N.

(** [s.trimStart()] *)
Fixpoint trimStart (s : string) : string :=
  match s with
  | String a r =>
      if ws1 a then trimStart r
      else
        match r with
        | String b r' =>
            if ws2 a b then trimStart r'
            else
              match r' with
              | String c r'' => if ws3 a b c then trimStart r'' else s
              | EmptyString => s
              end
        | EmptyString => s
        end
  | EmptyString => s
  end.

(** The same from the other end, on the reversed string. *)
Fixpoint trimReversed (s : string) : string :=
  match s with
  | String c r =>
      if ws1 c then trimReversed r
      else
        match r with
        | String b r' =>
            if ws2 b c then trimReversed r'
            else
              match r' with
              | String a r'' => if ws3 a b c then trimReversed r'' else s
              | EmptyString => s
              end
        | EmptyString => s
        end
  | EmptyString => s
  end.

(** [s.trimEnd()] *)
Definition trimEnd (s : string) : string :=
  String.rev (trimReversed (String.rev s)).

(** [s.trim()] *)
Definition trim (s : string) : string := trimEnd (trimStart s).

(** The component's state. *)
Record Input : Type := {
  message : string;
  isFocused : bool;
  sending : bool;
  showSecurityInfo : bool
}.

Definition setMessage (m : string) (st : Input) : Input :=
  {| message := m; isFocused := isFocused st; sending := sending st;
     showSecurityInfo := showSecurityInfo st |}.

Definition setSending (b : bool) (st : Input) : Input :=
  {| message := message st; isFocused := isFocused st; sending := b;
     showSecurityInfo := showSecurityInfo st |}.

Definition getEncryptionLabel (encryptionType : string) : string :=
  if String.eqb encryptionType "aes" then "AES-256-GCM"
  else if String.eqb encryptionType "chacha" then "ChaCha20-Poly1305"
  else if String.eqb encryptionType "homomorphic" then "Homomorphic (Beta)"
  else if String.eqb encryptionType "p2p" then "P2P ML-KEM"
  else "End-to-End".

(** [handleSubmit], with the parent's [onSendMessage], which may raise:
    the state it leaves and the contents it handed to the parent. *)
Definition handleSubmit (onSendMessage : string -> result unit) (st : Input)
  : Input * list string :=
  if String.eqb (trim (message st)) "" || sending st then (st, [])
  else
    let st1 := setSending true st in
    let st2 :=
      match onSendMessage (trim (message st)) with
      | Ok _ => setMessage "" st1
      | Throw _ => st1
      end in
    (setSending false st2, [trim (message st)]).

Definition toggleSecurityInfo (st : Input) : Input :=
  {| message := message st; isFocused := isFocused st; sending := sending st;
     showSecurityInfo := negb (showSecurityInfo st) |}.

(** A string of white space of one byte each. *)
Fixpoint blank (s : string) : bool :=
  match s with
  | EmptyString => true
  | String a r => ws1 a && blank r
  end.

End MessageInput.

(** * Theorems *)

(** ** Facts about the codecs *)

Lemma hex_decode_byte (b : byte) (s : string) :
  Hex.decode (String (Hex.digit (Byte.to_N b / 16))
                (String (Hex.digit (Byte.to_N b mod 16)) s))
  = b :: Hex.decode s.
Proof. destruct b; reflexivity. Qed.

(** Only the low byte of a code unit counts: U+0130 and U+0131 read as
    the digits 0 and 1; a pair with a character that is no digit ends the
    decoding, and an odd character at the end is left out. *)
Example hex_decode_edges :
  Hex.decode (Json.code_unit 304 +:+ Json.code_unit 305) = [x01] /\
  Hex.decode "0aFfzz10" = [x0a; xff] /\
  Hex.decode "0a1" = [x0a] /\
  Hex.decode "" = [].
Proof. repeat split; reflexivity. Qed.

Lemma hex_decode_encode (bs : list byte) : Hex.decode (Hex.encode bs) = bs.
Proof.
  induction bs as [|b bs IH]; [reflexivity|].
  cbn [Hex.encode]. rewrite hex_decode_byte. now rewrite IH.
Qed.

Lemma hex_digit_no_colon (b : byte) :
  Ascii.eqb (Hex.digit (Byte.to_N b / 16)) colon = false /\
  Ascii.eqb (Hex.digit (Byte.to_N b mod 16)) colon = false.
Proof. destruct b; split; reflexivity. Qed.

Lemma hex_encode_no_colon (bs : list byte) : has_colon (Hex.encode bs) = false.
Proof.
  induction bs as [|b bs IH]; [reflexivity|].
  cbn [Hex.encode has_colon].
  destruct (hex_digit_no_colon b) as [-> ->]. exact IH.
Qed.

Lemma split_colon_nonempty (s : string) : split_colon s <> [].
Proof.
  destruct s as [|c r]; cbn [split_colon]; [discriminate|].
  destruct (Ascii.eqb c colon); [discriminate|].
  destruct (split_colon r); discriminate.
Qed.

Lemma split_colon_app (a rest : string) :
  has_colon a = false ->
  split_colon (a +:+ String colon rest) = a :: split_colon rest.
Proof.
  induction a as [|c a IH]; intros Hc.
  - reflexivity.
  - cbn [has_colon] in Hc. apply orb_false_iff in Hc as [Hc Ha].
    change (String c a +:+ String colon rest)
      with (String c (a +:+ String colon rest)).
    cbn [split_colon]. rewrite Hc, (IH Ha). reflexivity.
Qed.

Lemma split_colon_plain (a : string) :
  has_colon a = false -> split_colon a = [a].
Proof.
  induction a as [|c a IH]; intros Hc; [reflexivity|].
  cbn [has_colon] in Hc. apply orb_false_iff in Hc as [Hc Ha].
  cbn [split_colon]. rewrite Hc, (IH Ha). reflexivity.
Qed.


(** ** Facts about [JSON.parse] *)

Example json_parse_signature :
  Json.parse ("[" +:+ Json.quote "0x1f" +:+ ", " +:+ Json.quote "0x2e" +:+ "]")
  = Ok (JArray [JString "0x1f"; JString "0x2e"]).
Proof. reflexivity. Qed.

Example json_parse_object :
  Json.parse ("{" +:+ Json.quote "a" +:+ ": [1, -2.5e3, true, null], "
                +:+ Json.quote "bA" +:+ ":{} }")
  = Ok (JObject [("a", JArray [JNumber "1"; JNumber "-2.5e3"; JBool true; JNull]);
                 ("bA", JObject [])]).
Proof. reflexivity. Qed.

Example json_parse_rejects :
  Json.parse "" = Throw SyntaxError /\
  Json.parse "deadbeef" = Throw SyntaxError /\
  Json.parse "[1,]" = Throw SyntaxError /\
  Json.parse "01" = Throw SyntaxError /\
  Json.parse "1." = Throw SyntaxError /\
  Json.parse "[1] x" = Throw SyntaxError.
Proof. repeat split; reflexivity. Qed.


(** ** The test platform *)

Example text_codec_ascii :
  TextCodec.decode (TextCodec.encode "hello") = "hello".
Proof. reflexivity. Qed.

Example text_codec_two_bytes :
  let s := Json.code_unit 233 +:+ "t" +:+ Json.code_unit 233 in
  TextCodec.encode s = [xc3; xa9; x74; xc3; xa9] /\
  TextCodec.decode (TextCodec.encode s) = s.
Proof. split; reflexivity. Qed.

(** U+1F600, the surrogate pair D83D DE00, has four bytes in UTF-8. *)
Example text_codec_pair :
  let s := Json.code_unit 55357 +:+ Json.code_unit 56832 in
  TextCodec.encode s = [xf0; x9f; x98; x80] /\
  TextCodec.decode (TextCodec.encode s) = s.
Proof. split; reflexivity. Qed.

Example text_codec_lone_surrogate :
  TextCodec.encode TestPlatform.lone_surrogate = [xef; xbf; xbd] /\
  TextCodec.decode (TextCodec.encode TestPlatform.lone_surrogate)
  = Json.code_unit 65533.
Proof. split; reflexivity. Qed.

Example text_codec_bom :
  TextCodec.decode (TextCodec.encode TestPlatform.bom_hi) = "hi".
Proof. split; reflexivity. Qed.

Lemma bytes_eqb_refl (a : list byte) : TestPlatform.bytes_eqb a a = true.
Proof.
  induction a as [|x a IH]; [reflexivity|].
  cbn [TestPlatform.bytes_eqb]. rewrite IH, andb_true_r.
  now apply Byte.byte_dec_lb.
Qed.

Lemma tag_length (k iv : list byte) : length (TestPlatform.tag k iv) = 16.
Proof.
  unfold TestPlatform.tag. rewrite length_firstn, !length_app, repeat_length. lia.
Qed.

Lemma test_open_seal (k iv m : list byte) :
  TestPlatform.open k iv (TestPlatform.seal k iv m) = Ok m.
Proof.
  unfold TestPlatform.open, TestPlatform.seal.
  rewrite length_app, tag_length.
  replace (length m + 16 - 16) with (length m) by lia.
  rewrite skipn_app, skipn_all, Nat.sub_diag. cbn [skipn app].
  rewrite bytes_eqb_refl.
  rewrite firstn_app, firstn_all, Nat.sub_diag. cbn [firstn].
  now rewrite app_nil_r.
Qed.

#[local] Instance test_platform_aes (seed : list byte) :
  AesGcmCorrect (TestPlatform.platform seed).
Proof. intros k iv m _. apply test_open_seal. Qed.

(** ** Encryption and decryption *)

Lemma importKey_valid (raw : list byte) :
  valid_aes_key raw = true -> importKey raw = Ok raw.
Proof. intros H. unfold importKey. now rewrite H. Qed.

Lemma valid_aes_key_firstn (raw : list byte) :
  valid_aes_key raw = true -> firstn 32 raw = raw.
Proof.
  unfold valid_aes_key. intros H. apply firstn_all2.
  repeat (apply orb_true_iff in H as [H|H]);
    apply Nat.eqb_eq in H; lia.
Qed.

Lemma colon_app (x : string) : ":" +:+ x = String colon x.
Proof. reflexivity. Qed.

Section RoundTrip.
Context {P : Platform} {HA : AesGcmCorrect P}.

Lemma nist_decrypt_encrypt (message key : string) :
  valid_key key ->
  exists c, CryptoNist.encryptAES message key = Ok c /\
            CryptoNist.decryptAES c key = Ok (utf8_decode (utf8_encode message)).
Proof.
  intros Hk. unfold CryptoNist.encryptAES.
  rewrite (importKey_valid _ Hk). cbn [bind].
  eexists; split; [reflexivity|].
  unfold CryptoNist.decryptAES.
  rewrite !colon_app.
  rewrite split_colon_app by apply hex_encode_no_colon.
  rewrite split_colon_plain by apply hex_encode_no_colon.
  rewrite !hex_decode_encode, (importKey_valid _ Hk). cbn [bind].
  now rewrite (aes_gcm_correct _ _ _ Hk).
Qed.

Lemma hybrid_decrypt_encrypt (message key : string) :
  valid_key key ->
  returns CryptoHybrid.pqcInit ->
  exists c, CryptoHybrid.encryptAES message key = Ok c /\
            CryptoHybrid.decryptAES c key = Ok (utf8_decode (utf8_encode message)).
Proof.
  intros Hk [kem Hkem]. unfold CryptoHybrid.encryptAES.
  rewrite (valid_aes_key_firstn _ Hk), (importKey_valid _ Hk). cbn [bind].
  unfold CryptoHybrid.generateKyberKeypair. rewrite Hkem. cbn [bind].
  destruct (kemKeypair kem "Kyber") as [pk sk]. cbn [bind publicKey].
  eexists; split; [reflexivity|].
  unfold CryptoHybrid.decryptAES.
  rewrite !colon_app.
  rewrite split_colon_app by apply hex_encode_no_colon.
  rewrite split_colon_app by apply hex_encode_no_colon.
  rewrite !hex_decode_encode, (importKey_valid _ Hk). cbn [bind].
  now rewrite (aes_gcm_correct _ _ _ Hk).
Qed.

End RoundTrip.

(** C1, as amended.  For every plaintext that the platform's text codec
    carries unchanged (TextDecoder gives back what TextEncoder was given:
    no surrogate on its own, no leading byte order mark) and every valid
    symmetric key, [decryptAES (encryptAES P K) K] returns exactly [P], in
    both versions of the module; in the hybrid version the third
    component of the output is ignored by [decryptAES] and the cut of the
    key to 32 bytes is the identity on a valid key.  The hybrid
    [encryptAES] returns when the post-quantum library initialises. *)
Theorem encryptAES_decryptAES_roundtrip
    (P : Platform) (HA : AesGcmCorrect P) (message key : string) :
  valid_key key ->
  utf8_decode (utf8_encode message) = message ->
  (exists c, CryptoNist.encryptAES message key = Ok c /\
             CryptoNist.decryptAES c key = Ok message) /\
  (returns CryptoHybrid.pqcInit ->
   exists c, CryptoHybrid.encryptAES message key = Ok c /\
             CryptoHybrid.decryptAES c key = Ok message).
Proof.
  intros Hk Htext. split.
  - destruct (nist_decrypt_encrypt message key Hk) as (c & He & Hd).
    exists c. now rewrite <- Htext at 2.
  - intros Hinit.
    destruct (hybrid_decrypt_encrypt message key Hk Hinit) as (c & He & Hd).
    exists c. now rewrite <- Htext at 2.
Qed.

Lemma encryptAES_decryptAES_roundtrip_witness :
  (exists c, CryptoNist.encryptAES (P := TestPlatform.platform []) "hello"
               TestPlatform.key256 = Ok c /\
             CryptoNist.decryptAES (P := TestPlatform.platform []) c
               TestPlatform.key256 = Ok "hello") /\
  (returns (CryptoHybrid.pqcInit (P := TestPlatform.platform [])) ->
   exists c, CryptoHybrid.encryptAES (P := TestPlatform.platform []) "hello"
               TestPlatform.key256 = Ok c /\
             CryptoHybrid.decryptAES (P := TestPlatform.platform []) c
               TestPlatform.key256 = Ok "hello").
Proof.
  apply (encryptAES_decryptAES_roundtrip (TestPlatform.platform [])
           (test_platform_aes []) "hello" TestPlatform.key256).
  - reflexivity.
  - reflexivity.
Defined.

(** The claim as written fails at a plaintext that is a surrogate on its
    own (the code unit U+D800): [TextEncoder] encodes it as U+FFFD, and
    U+FFFD is what decryption returns. *)
Lemma encryptAES_decryptAES_lone_surrogate :
  exists c,
    CryptoNist.encryptAES (P := TestPlatform.platform [])
      TestPlatform.lone_surrogate TestPlatform.key256 = Ok c /\
    CryptoNist.decryptAES (P := TestPlatform.platform []) c TestPlatform.key256
      = Ok (Json.code_unit 65533) /\
    Json.code_unit 65533 <> TestPlatform.lone_surrogate.
Proof.
  eexists. split; [reflexivity|]. split; [reflexivity|]. discriminate.
Qed.

(** It fails as well at a well-formed plaintext that starts with U+FEFF:
    [new TextDecoder()] leaves a leading byte order mark out. *)
Lemma encryptAES_decryptAES_leading_bom :
  exists c,
    CryptoNist.encryptAES (P := TestPlatform.platform [])
      TestPlatform.bom_hi TestPlatform.key256 = Ok c /\
    CryptoNist.decryptAES (P := TestPlatform.platform []) c TestPlatform.key256
      = Ok "hi" /\
    "hi" <> TestPlatform.bom_hi.
Proof.
  eexists. split; [reflexivity|]. split; [reflexivity|]. discriminate.
Qed.

(** The failure does not come from the stand-in cipher: on any platform
    whose AES-GCM is correct, decryption returns the plaintext as the text
    codec carries it. *)
Lemma decryptAES_returns_codec_image
    (P : Platform) (HA : AesGcmCorrect P) (message key : string) :
  valid_key key ->
  utf8_decode (utf8_encode message) <> message ->
  exists c, CryptoNist.encryptAES message key = Ok c /\
            CryptoNist.decryptAES c key <> Ok message.
Proof.
  intros Hk Hne.
  destruct (nist_decrypt_encrypt message key Hk) as (c & He & Hd).
  exists c. split; [exact He|]. rewrite Hd. congruence.
Qed.

(** The hybrid [encryptAES] cuts the key to 32 bytes and [decryptAES] does
    not: a 33-byte key encrypts, and then fails to import on decryption. *)
Example hybrid_long_key :
  let key := TestPlatform.key256 +:+ "00" in
  exists c,
    CryptoHybrid.encryptAES (P := TestPlatform.platform []) "hello" key = Ok c /\
    CryptoHybrid.decryptAES (P := TestPlatform.platform []) c key
      = Throw DataError.
Proof. eexists. split; reflexivity. Qed.

Lemma hybrid_encryptAES_needs_pqc (P : Platform) (message key : string) e :
  valid_key key ->
  CryptoHybrid.pqcInit = Throw e ->
  CryptoHybrid.encryptAES message key = Throw e.
Proof.
  intros Hk Hinit. unfold CryptoHybrid.encryptAES.
  rewrite (valid_aes_key_firstn _ Hk), (importKey_valid _ Hk). cbn [bind].
  unfold CryptoHybrid.generateKyberKeypair. now rewrite Hinit.
Qed.

(** ** The third component of the hybrid envelope *)

Lemma hybrid_encryptAES_components (P : Platform) (message key c : string) :
  CryptoHybrid.encryptAES message key = Ok c ->
  exists raw kp,
    importKey (firstn 32 (Hex.decode key)) = Ok raw /\
    CryptoHybrid.generateKyberKeypair = Ok kp /\
    component 0 c = Hex.encode (getRandomValues 12) /\
    component 1 c
      = Hex.encode (aes_gcm_encrypt raw (getRandomValues 12) (utf8_encode message)) /\
    component 2 c = Hex.encode (utf8_encode (publicKey kp)).
Proof.
  unfold CryptoHybrid.encryptAES. intros H.
  apply bind_Ok in H as (raw & Hraw & H).
  apply bind_Ok in H as (kp & Hkp & H).
  injection H as <-. exists raw, kp. split; [exact Hraw|]. split; [exact Hkp|].
  unfold component. rewrite !colon_app.
  rewrite split_colon_app by apply hex_encode_no_colon.
  rewrite split_colon_app by apply hex_encode_no_colon.
  rewrite split_colon_plain by apply hex_encode_no_colon.
  repeat split.
Qed.

(** Whatever the message and the key, the third component is the same
    text: the public key of the pair generated during the call. *)
Lemma hybridKey_ignores_message_and_key
    (P : Platform) (m1 k1 m2 k2 c1 c2 : string) :
  CryptoHybrid.encryptAES m1 k1 = Ok c1 ->
  CryptoHybrid.encryptAES m2 k2 = Ok c2 ->
  component 2 c1 = component 2 c2.
Proof.
  intros H1 H2.
  apply hybrid_encryptAES_components in H1 as (? & kp1 & _ & Hkp1 & _ & _ & ->).
  apply hybrid_encryptAES_components in H2 as (? & kp2 & _ & Hkp2 & _ & _ & ->).
  congruence.
Qed.

(** C2, the code at the failing input.  Under two different symmetric
    keys the third component of the envelope is the same; under the same
    message and key it changes with the key pair that [encryptAES]
    generates for itself.  It is the text of that pair's public key, and
    [encryptAES] is given no recipient key at all. *)
Theorem encryptAES_hybridKey_is_unrelated_public_key :
  let A := TestPlatform.platform [x01] in
  let B := TestPlatform.platform [x02] in
  exists a1 a2 b1 kpA,
    CryptoHybrid.encryptAES (P := A) "hello" TestPlatform.key256 = Ok a1 /\
    CryptoHybrid.encryptAES (P := A) "hello" TestPlatform.key256' = Ok a2 /\
    CryptoHybrid.encryptAES (P := B) "hello" TestPlatform.key256 = Ok b1 /\
    CryptoHybrid.generateKyberKeypair (P := A) = Ok kpA /\
    component 1 a1 <> component 1 a2 /\
    component 2 a1 = component 2 a2 /\
    component 2 a1 <> component 2 b1 /\
    component 2 a1 = Hex.encode (TextCodec.encode (publicKey kpA)).
Proof.
  cbv zeta. do 4 eexists.
  split; [reflexivity|]. split; [reflexivity|]. split; [reflexivity|].
  split; [reflexivity|].
  split; [vm_compute; discriminate|].
  split; [vm_compute; reflexivity|].
  split; [vm_compute; discriminate|].
  vm_compute; reflexivity.
Qed.

(** ** Proofs of message content *)

(** C3.  For every digest [d], [verifyZKProof d (generateZKProof d)] is
    true; for digests [d] and [d'] that differ and whose commitments
    differ, [verifyZKProof d' (generateZKProof d)] is false.  Both
    versions of the module. *)
Theorem verifyZKProof_generateZKProof (P : Platform) (d d' : string) :
  (CryptoHybrid.verifyZKProof d (Some (CryptoHybrid.generateZKProof d)) = true /\
   CryptoNist.verifyZKProof d (Some (CryptoNist.generateZKProof d)) = true) /\
  (d <> d' ->
   poseidonHash [sha256 d] <> poseidonHash [sha256 d'] ->
   CryptoHybrid.verifyZKProof d' (Some (CryptoHybrid.generateZKProof d)) = false /\
   CryptoNist.verifyZKProof d' (Some (CryptoNist.generateZKProof d)) = false).
Proof.
  unfold CryptoHybrid.verifyZKProof, CryptoHybrid.generateZKProof,
    CryptoNist.verifyZKProof, CryptoNist.generateZKProof.
  split.
  - now rewrite String.eqb_refl.
  - intros _ Hne. apply String.eqb_neq in Hne. now rewrite Hne.
Qed.

Lemma verifyZKProof_generateZKProof_witness :
  ("6976:6374" <> "6976:6375" /\
   poseidonHash (Platform := TestPlatform.platform [])
     [sha256 (Platform := TestPlatform.platform []) "6976:6374"]
   <> poseidonHash (Platform := TestPlatform.platform [])
        [sha256 (Platform := TestPlatform.platform []) "6976:6375"]) /\
  (CryptoHybrid.verifyZKProof (P := TestPlatform.platform []) "6976:6375"
     (Some (CryptoHybrid.generateZKProof (P := TestPlatform.platform [])
              "6976:6374")) = false /\
   CryptoNist.verifyZKProof (P := TestPlatform.platform []) "6976:6375"
     (Some (CryptoNist.generateZKProof (P := TestPlatform.platform [])
              "6976:6374")) = false).
Proof.
  assert (H1 : "6976:6374" <> "6976:6375") by discriminate.
  assert (H2 : poseidonHash (Platform := TestPlatform.platform [])
                 [sha256 (Platform := TestPlatform.platform []) "6976:6374"]
               <> poseidonHash (Platform := TestPlatform.platform [])
                    [sha256 (Platform := TestPlatform.platform []) "6976:6375"])
    by (vm_compute; intros H; discriminate H).
  split; [split; assumption|].
  exact (proj2 (verifyZKProof_generateZKProof (TestPlatform.platform [])
                  "6976:6374" "6976:6375") H1 H2).
Defined.

(** A call without the proof argument is never true. *)
Lemma verifyZKProof_without_proof (P : Platform) (message : string) :
  CryptoHybrid.verifyZKProof message None = false /\
  CryptoNist.verifyZKProof message None = false.
Proof. split; reflexivity. Qed.

(** ** Signature verification *)

Lemma json_parse_cases (text : string) :
  (exists v, Json.parse text = Ok v) \/ Json.parse text = Throw SyntaxError.
Proof.
  unfold Json.parse.
  destruct (Json.parse_value _ text) as [[v r]|]; [|now right].
  destruct (Json.skip_ws r); [left; eauto | now right].
Qed.

Section Verify.
Context {P : Platform}.

Lemma verifyStarkNetSignature_unparsable (message signature publicKey : string) :
  Json.parse signature = Throw SyntaxError ->
  CryptoHybrid.verifyStarkNetSignature message signature publicKey
    = Throw SyntaxError /\
  CryptoNist.verifyStarkNetSignature message signature publicKey
    = Throw SyntaxError.
Proof.
  intros H.
  unfold CryptoHybrid.verifyStarkNetSignature, CryptoNist.verifyStarkNetSignature.
  now rewrite H.
Qed.

Lemma verifyStarkNetSignature_parsable
    (message signature publicKey : string) (v : json) :
  Json.parse signature = Ok v ->
  CryptoHybrid.verifyStarkNetSignature message signature publicKey
    = bind (computePedersenHash message)
        (fun hashedMessage => ec_verify publicKey hashedMessage v) /\
  CryptoNist.verifyStarkNetSignature message signature publicKey
    = bind (computePedersenHash message)
        (fun hashedMessage => ec_verify publicKey hashedMessage v).
Proof.
  intros H.
  unfold CryptoHybrid.verifyStarkNetSignature, CryptoNist.verifyStarkNetSignature.
  now rewrite H.
Qed.

Lemma verifySignature_ready (dsa : PQC) (message signature publicKey : string) :
  wasm_simd = true -> wasm_init = Ok dsa ->
  CryptoHybrid.verifySignature message signature publicKey
    = dsa_verify dsa "Dilithium" (utf8_encode message)
        (Hex.decode signature) (Hex.decode publicKey) /\
  CryptoNist.verifySignature message signature publicKey
    = dsa_verify dsa "SLH-DSA-SHAKE-256f" (utf8_encode message)
        (Hex.decode signature) (Hex.decode publicKey).
Proof.
  intros Hs Hi.
  unfold CryptoHybrid.verifySignature, CryptoNist.verifySignature,
    CryptoHybrid.pqcInit, CryptoNist.pqcInit.
  now rewrite Hs, Hi.
Qed.

End Verify.

(** C4, as amended.  Whether verification raises is decided by reading
    its arguments, not by the validity of the signature.
    [verifyStarkNetSignature] raises [SyntaxError] on every signature
    that is not JSON text; on one that is, it raises what the Pedersen
    hash raises on the message, and when the hash returns it gives what
    the curve's [verify] gives on the parsed value.  [verifySignature]
    reads any signature text as hexadecimal without raising; once the
    post-quantum library is initialised it gives what the library's
    [verify] gives on the decoded bytes. *)
Theorem verify_raises_on_unparsable_signature
    (P : Platform) (message signature publicKey : string) :
  (Json.parse signature = Throw SyntaxError ->
   CryptoHybrid.verifyStarkNetSignature message signature publicKey
     = Throw SyntaxError /\
   CryptoNist.verifyStarkNetSignature message signature publicKey
     = Throw SyntaxError) /\
  (forall v e, Json.parse signature = Ok v ->
   computePedersenHash message = Throw e ->
   CryptoHybrid.verifyStarkNetSignature message signature publicKey = Throw e /\
   CryptoNist.verifyStarkNetSignature message signature publicKey = Throw e) /\
  (forall v h, Json.parse signature = Ok v ->
   computePedersenHash message = Ok h ->
   CryptoHybrid.verifyStarkNetSignature message signature publicKey
     = ec_verify publicKey h v /\
   CryptoNist.verifyStarkNetSignature message signature publicKey
     = ec_verify publicKey h v) /\
  (forall dsa, wasm_simd = true -> wasm_init = Ok dsa ->
   CryptoHybrid.verifySignature message signature publicKey
     = dsa_verify dsa "Dilithium" (utf8_encode message)
         (Hex.decode signature) (Hex.decode publicKey) /\
   CryptoNist.verifySignature message signature publicKey
     = dsa_verify dsa "SLH-DSA-SHAKE-256f" (utf8_encode message)
         (Hex.decode signature) (Hex.decode publicKey)).
Proof.
  split; [apply verifyStarkNetSignature_unparsable|].
  split; [|split].
  - intros v e Hv He.
    destruct (verifyStarkNetSignature_parsable message signature publicKey v Hv)
      as [-> ->]. now rewrite He.
  - intros v h Hv Hh.
    destruct (verifyStarkNetSignature_parsable message signature publicKey v Hv)
      as [-> ->]. now rewrite Hh.
  - intros dsa; apply verifySignature_ready.
Qed.

Lemma verify_raises_on_unparsable_signature_witness :
  let P := TestPlatform.platform [] in
  let json_signature := "[" +:+ Json.quote "1" +:+ "," +:+ Json.quote "2" +:+ "]" in
  (Json.parse "deadbeef" = Throw SyntaxError /\
   CryptoHybrid.verifyStarkNetSignature "6976:6374" "deadbeef" "04a1"
     = Throw SyntaxError /\
   CryptoNist.verifyStarkNetSignature "6976:6374" "deadbeef" "04a1"
     = Throw SyntaxError) /\
  ((Json.parse json_signature = Ok (JArray [JString "1"; JString "2"]) /\
    computePedersenHash "6976:6374" = Throw LibraryError) /\
   CryptoHybrid.verifyStarkNetSignature "6976:6374" json_signature "04a1"
     = Throw LibraryError /\
   CryptoNist.verifyStarkNetSignature "6976:6374" json_signature "04a1"
     = Throw LibraryError) /\
  ((Json.parse json_signature = Ok (JArray [JString "1"; JString "2"]) /\
    computePedersenHash "1234" = Ok "1234") /\
   CryptoHybrid.verifyStarkNetSignature "1234" json_signature "04a1"
     = ec_verify "04a1" "1234" (JArray [JString "1"; JString "2"]) /\
   CryptoNist.verifyStarkNetSignature "1234" json_signature "04a1"
     = ec_verify "04a1" "1234" (JArray [JString "1"; JString "2"])).
Proof.
  cbv zeta. split; [|split].
  - split; [reflexivity|].
    apply (proj1 (verify_raises_on_unparsable_signature
                    (TestPlatform.platform []) "6976:6374" "deadbeef" "04a1")).
    reflexivity.
  - split; [split; reflexivity|].
    apply (proj1 (proj2 (verify_raises_on_unparsable_signature
                    (TestPlatform.platform []) "6976:6374"
                    ("[" +:+ Json.quote "1" +:+ "," +:+ Json.quote "2" +:+ "]")
                    "04a1")) (JArray [JString "1"; JString "2"]) LibraryError);
      reflexivity.
  - split; [split; reflexivity|].
    apply (proj1 (proj2 (proj2 (verify_raises_on_unparsable_signature
                    (TestPlatform.platform []) "1234"
                    ("[" +:+ Json.quote "1" +:+ "," +:+ Json.quote "2" +:+ "]")
                    "04a1"))) (JArray [JString "1"; JString "2"]) "1234");
      reflexivity.
Defined.

(** The claim as written fails: handed a signature that is a plain
    hexadecimal string and not JSON, [verifyStarkNetSignature] raises, on
    every platform, whatever the message and the public key. *)
Lemma verifyStarkNetSignature_raises :
  CryptoNist.verifyStarkNetSignature (P := TestPlatform.platform [])
    "6976:6374" "deadbeef" "04a1" = Throw SyntaxError /\
  CryptoHybrid.verifyStarkNetSignature (P := TestPlatform.platform [])
    "6976:6374" "deadbeef" "04a1" = Throw SyntaxError /\
  ~ returns (CryptoNist.verifyStarkNetSignature (P := TestPlatform.platform [])
               "6976:6374" "deadbeef" "04a1").
Proof.
  split; [reflexivity|]. split; [reflexivity|].
  intros [b Hb]. discriminate Hb.
Qed.

(** [verifySignature] itself raises when the library cannot start. *)
Lemma verifySignature_without_simd
    (P : Platform) (message signature publicKey : string) :
  wasm_simd = false ->
  CryptoHybrid.verifySignature message signature publicKey = Throw SimdRequired /\
  CryptoNist.verifySignature message signature publicKey = Throw SimdRequired.
Proof.
  intros H.
  unfold CryptoHybrid.verifySignature, CryptoNist.verifySignature,
    CryptoHybrid.pqcInit, CryptoNist.pqcInit.
  now rewrite H.
Qed.

(** ** Decentralised identifiers *)

Lemma generateDID_id (P : Platform) (r : Identity) :
  generated P r ->
  did_id r = "did:tetracrypt:" +:+ substring 0 16 (did_publicKey r).
Proof.
  intros [H|H].
  - unfold CryptoHybrid.generateDID in H.
    apply bind_Ok in H as (kp & _ & H). now injection H as <-.
  - unfold CryptoNist.generateDID in H.
    apply bind_Ok in H as (kp & _ & H). now injection H as <-.
Qed.

(** [generateDID] returns as soon as the library is initialised, with
    the key pair the library drew. *)
Lemma generateDID_returns (P : Platform) (kem : PQC) :
  wasm_simd = true -> wasm_init = Ok kem ->
  (exists r, CryptoHybrid.generateDID = Ok r /\
             did_publicKey r = Hex.encode (fst (kemKeypair kem "Kyber"))) /\
  (exists r, CryptoNist.generateDID = Ok r /\
             did_publicKey r = Hex.encode (fst (kemKeypair kem "ML-KEM-1024"))).
Proof.
  intros Hs Hi. split.
  - unfold CryptoHybrid.generateDID, CryptoHybrid.generateKyberKeypair,
      CryptoHybrid.pqcInit.
    rewrite Hs, Hi. cbn [negb bind].
    destruct (kemKeypair kem "Kyber") as [pk sk]. cbn [bind].
    eexists; split; reflexivity.
  - unfold CryptoNist.generateDID, CryptoNist.generateMLKEMKeypair,
      CryptoNist.pqcInit.
    rewrite Hs, Hi. cbn [negb bind].
    destruct (kemKeypair kem "ML-KEM-1024") as [pk sk]. cbn [bind].
    eexists; split; reflexivity.
Qed.

(** C8.  The identifier of a generated identity is a function of its
    public key alone: it is ["did:tetracrypt:"] followed by the first 16
    characters of the public key, in both versions of [generateDID]; so
    two identities generated with the same public key, on any two
    platforms, have the same identifier. *)
Theorem generateDID_deterministic_in_public_key
    (P P' : Platform) (r r' : Identity) :
  generated P r -> generated P' r' ->
  did_id r = "did:tetracrypt:" +:+ substring 0 16 (did_publicKey r) /\
  (did_publicKey r = did_publicKey r' -> did_id r = did_id r').
Proof.
  intros H H'. split; [now apply (generateDID_id P)|].
  intros Hpk. rewrite (generateDID_id P r H), (generateDID_id P' r' H').
  now rewrite Hpk.
Qed.

Lemma generateDID_deterministic_in_public_key_witness :
  let r := {| did_id := "did:tetracrypt:014b79626572";
              did_publicKey := "014b79626572";
              did_privateKey := "4b7962657201" |} in
  let r' := {| did_id := "did:tetracrypt:0102030405064d4c";
               did_publicKey := "0102030405064d4c2d4b454d2d31303234";
               did_privateKey := "4d4c2d4b454d2d31303234010203040506" |} in
  (generated (TestPlatform.platform [x01]) r /\
   generated (TestPlatform.platform [x01; x02; x03; x04; x05; x06]) r') /\
  (did_id r = "did:tetracrypt:" +:+ substring 0 16 (did_publicKey r) /\
   (did_publicKey r = did_publicKey r -> did_id r = did_id r)) /\
  (did_id r' = "did:tetracrypt:" +:+ substring 0 16 (did_publicKey r') /\
   (did_publicKey r' = did_publicKey r -> did_id r' = did_id r)).
Proof.
  cbv zeta.
  assert (H : generated (TestPlatform.platform [x01])
                {| did_id := "did:tetracrypt:014b79626572";
                   did_publicKey := "014b79626572";
                   did_privateKey := "4b7962657201" |})
    by (left; reflexivity).
  assert (H' : generated (TestPlatform.platform [x01; x02; x03; x04; x05; x06])
                 {| did_id := "did:tetracrypt:0102030405064d4c";
                    did_publicKey := "0102030405064d4c2d4b454d2d31303234";
                    did_privateKey := "4d4c2d4b454d2d31303234010203040506" |})
    by (right; reflexivity).
  split; [split; assumption|]. split.
  - exact (generateDID_deterministic_in_public_key _ _ _ _ H H).
  - exact (generateDID_deterministic_in_public_key _ _ _ _ H' H).
Defined.

(** ** The message store *)

Section MarkRead.
Import Storage.

Lemma getUserProfile_store (st : State) :
  messages (getUserProfile st).2 = messages st /\
  contacts (getUserProfile st).2 = contacts st /\
  localStorage (getUserProfile st).2 = localStorage st.
Proof.
  unfold getUserProfile.
  destruct (currentUser st); [easy|].
  destruct (ls_userProfile (localStorage st)); easy.
Qed.

Lemma markIfFrom_frame (contactId : string) (u : UserProfile) (m : Message) :
  let m' := markIfFrom contactId u m in
  id m' = id m /\ sender m' = sender m /\ receiver m' = receiver m /\
  content m' = content m /\ timestamp m' = timestamp m.
Proof. unfold markIfFrom. destruct (_ && _); easy. Qed.

Lemma markIfFrom_status (contactId : string) (u : UserProfile) (m : Message) :
  (sender m = contactId /\ receiver m = userId u ->
   status (markIfFrom contactId u m) = "read") /\
  (~ (sender m = contactId /\ receiver m = userId u) ->
   markIfFrom contactId u m = m).
Proof.
  unfold markIfFrom. split.
  - intros [-> ->]. now rewrite !String.eqb_refl.
  - intros Hn.
    destruct (String.eqb_spec (sender m) contactId) as [Hs|Hs]; [|easy].
    destruct (String.eqb_spec (receiver m) (userId u)) as [Hr|Hr]; [|easy].
    now destruct Hn.
Qed.

Lemma markMessagesAsRead_messages (contactId : string) (st : State) :
  messages (markMessagesAsRead contactId st)
  = match (getUserProfile st).1 with
    | Some u => map (markIfFrom contactId u) (messages st)
    | None => messages st
    end.
Proof.
  unfold markMessagesAsRead.
  pose proof (getUserProfile_store st) as (Hm & _ & _).
  destruct (getUserProfile st) as [[u|] st1]; cbn in *; now rewrite Hm.
Qed.

(** What the call leaves in [localStorage]: with a profile, the text of
    the list in memory; without one, what was there. *)
Lemma markMessagesAsRead_persisted (contactId : string) (st : State) :
  ls_messages (localStorage (markMessagesAsRead contactId st))
  = match (getUserProfile st).1 with
    | Some u => Some (messages (markMessagesAsRead contactId st))
    | None => ls_messages (localStorage st)
    end.
Proof.
  unfold markMessagesAsRead.
  pose proof (getUserProfile_store st) as (Hm & _ & Hl).
  destruct (getUserProfile st) as [[u|] st1]; cbn in *; [easy|].
  now rewrite Hl.
Qed.

End MarkRead.

(** On the messages in memory, [markMessagesAsRead contactId] keeps
    place and number; of each message it keeps [id], [sender],
    [receiver], [content] and [timestamp]; it leaves a message wholly
    unchanged unless its sender is [contactId] and its receiver is the
    current user, in which case the status becomes ["read"]; and with no
    current user profile the messages, in memory and in [localStorage],
    are unchanged. *)
Lemma markMessagesAsRead_frame (contactId : string) (st : Storage.State) :
  let st' := Storage.markMessagesAsRead contactId st in
  length (Storage.messages st') = length (Storage.messages st) /\
  (forall (i : nat) (m : Storage.Message),
     Storage.messages st !! i = Some m ->
     exists m',
       Storage.messages st' !! i = Some m' /\
       Storage.id m' = Storage.id m /\
       Storage.sender m' = Storage.sender m /\
       Storage.receiver m' = Storage.receiver m /\
       Storage.content m' = Storage.content m /\
       Storage.timestamp m' = Storage.timestamp m /\
       (forall u, (Storage.getUserProfile st).1 = Some u ->
          (Storage.sender m = contactId /\ Storage.receiver m = Storage.userId u ->
           Storage.status m' = "read") /\
          (~ (Storage.sender m = contactId /\
              Storage.receiver m = Storage.userId u) -> m' = m))) /\
  ((Storage.getUserProfile st).1 = None ->
   Storage.messages st' = Storage.messages st /\
   Storage.ls_messages (Storage.localStorage st')
   = Storage.ls_messages (Storage.localStorage st)).
Proof.
  cbv zeta.
  pose proof (markMessagesAsRead_messages contactId st) as Hm.
  pose proof (markMessagesAsRead_persisted contactId st) as Hp.
  destruct (Storage.getUserProfile st).1 as [u|] eqn:Hu.
  - rewrite Hm. split; [apply length_map|]. split; [|discriminate].
    intros i m Hi. exists (Storage.markIfFrom contactId u m).
    split; [rewrite list_lookup_fmap, Hi; reflexivity|].
    destruct (markIfFrom_frame contactId u m) as (? & ? & ? & ? & ?).
    repeat (split; [assumption|]).
    intros u' [= <-]. apply markIfFrom_status.
  - rewrite Hm. split; [reflexivity|].
    split; [|intros _; split; [reflexivity|assumption]].
    intros i m Hi. exists m. repeat split; easy.
Qed.

(** What else the call touches: nothing of the contacts and of the other
    entries of [localStorage]; the profile it read is kept in memory. *)
Lemma markMessagesAsRead_rest (contactId : string) (st : Storage.State) :
  let st' := Storage.markMessagesAsRead contactId st in
  Storage.contacts st' = Storage.contacts st /\
  Storage.currentUser st' = (Storage.getUserProfile st).1 /\
  Storage.ls_userProfile (Storage.localStorage st')
  = Storage.ls_userProfile (Storage.localStorage st) /\
  Storage.ls_contacts (Storage.localStorage st')
  = Storage.ls_contacts (Storage.localStorage st).
Proof.
  cbv zeta. unfold Storage.markMessagesAsRead, Storage.getUserProfile.
  destruct (Storage.currentUser st) as [u|] eqn:Hc; cbn; [now rewrite Hc|].
  destruct (Storage.ls_userProfile (Storage.localStorage st)) as [u|] eqn:Hl;
    cbn; [easy|]. now rewrite Hc.
Qed.

(** C9, the code at the failing input.  The page is just loaded:
    [localStorage] holds Bob's profile and a message from Carol to Bob,
    the memory is empty.  [getMessages] would load the message.
    [markMessagesAsRead "alice"] does not load: it goes through the empty
    list of the memory and writes it over the stored messages.  Carol's
    message, which is not from Alice, is gone, now and after a reload.
    When the messages were loaded first, it is kept as it was. *)
Theorem markMessagesAsRead_erases_unloaded_messages :
  let bob := {| Storage.userId := "bob"; Storage.sessionKey := "";
                Storage.starknetAddress := "" |} in
  let m :=
    {| Storage.id := "7"; Storage.sender := "carol"; Storage.receiver := "bob";
       Storage.content := "6976:6374"; Storage.timestamp := 0%Z;
       Storage.status := "unread" |} in
  let fresh :=
    Storage.init {| Storage.ls_userProfile := Some bob;
                    Storage.ls_contacts := None;
                    Storage.ls_messages := Some [m] |} in
  let st := Storage.markMessagesAsRead "alice" fresh in
  let loaded := (Storage.getMessages "carol" "bob" fresh).2 in
  (Storage.getMessages "carol" "bob" fresh).1 = [m] /\
  Storage.messages st = [] /\
  Storage.ls_messages (Storage.localStorage st) = Some [] /\
  (Storage.getMessages "carol" "bob" st).1 = [] /\
  (Storage.getMessages "carol" "bob" (Storage.reload st)).1 = [] /\
  (Storage.getMessages "carol" "bob"
     (Storage.markMessagesAsRead "alice" loaded)).1 = [m] /\
  Storage.ls_messages
    (Storage.localStorage (Storage.markMessagesAsRead "alice" loaded))
  = Some [m].
Proof. cbv zeta. repeat split. Qed.

(** A store to run the storage functions on: Bob's profile and three
    messages, the first and the third sent by Alice to Bob. *)
Example markMessagesAsRead_run :
  let msg i s r t :=
    {| Storage.id := i; Storage.sender := s; Storage.receiver := r;
       Storage.content := t; Storage.timestamp := 0%Z;
       Storage.status := "unread" |} in
  let st :=
    {| Storage.currentUser :=
         Some {| Storage.userId := "bob"; Storage.sessionKey := "";
                 Storage.starknetAddress := "" |};
       Storage.contacts := [];
       Storage.messages :=
         [msg "1" "alice" "bob" "a"; msg "2" "bob" "alice" "b";
          msg "3" "alice" "bob" "c"; msg "4" "carol" "bob" "d"];
       Storage.localStorage :=
         {| Storage.ls_userProfile := None; Storage.ls_contacts := None;
            Storage.ls_messages := None |} |} in
  map Storage.status (Storage.messages (Storage.markMessagesAsRead "alice" st))
  = ["read"; "unread"; "read"; "unread"].
Proof. reflexivity. Qed.

(** ** Contacts *)

Section Contacts.
Import Storage.

Lemma ensureSignatureKey_defined (c : Contact) :
  is_Some (ensureSignatureKey c !! "signatureKey").
Proof.
  unfold ensureSignatureKey.
  destruct (truthy (c !! "signatureKey")) eqn:Ht; cbn [negb].
  - unfold truthy in Ht. destruct (c !! "signatureKey"); [eauto|discriminate].
  - rewrite lookup_insert_eq. eauto.
Qed.

Lemma ensureSignatureKey_fallback (c : Contact) :
  c !! "signatureKey" = None \/ c !! "signatureKey" = Some "" ->
  ensureSignatureKey c !! "signatureKey"
  = Some (match c !! "publicKey" with Some pk => pk | None => "" end) /\
  (forall k : string, k <> "signatureKey" -> ensureSignatureKey c !! k = c !! k).
Proof.
  intros H. unfold ensureSignatureKey.
  assert (Ht : truthy (c !! "signatureKey") = false)
    by (destruct H as [-> | ->]; reflexivity).
  rewrite Ht. cbn [negb]. split.
  - rewrite lookup_insert_eq. f_equal. unfold or_empty, truthy.
    destruct (c !! "publicKey") as [pk|]; [|reflexivity].
    destruct (String.eqb_spec pk ""); [now subst|reflexivity].
  - intros k Hk. now rewrite lookup_insert_ne.
Qed.

Lemma ensureSignatureKey_kept (c : Contact) (sk : string) :
  c !! "signatureKey" = Some sk -> sk <> "" -> ensureSignatureKey c = c.
Proof.
  intros H Hne. unfold ensureSignatureKey, truthy. rewrite H.
  destruct (String.eqb_spec sk ""); [contradiction|reflexivity].
Qed.

End Contacts.

(** C10.  Every contact that [getContacts] returns has its [signatureKey]
    defined, and so has the contact that [getContactById] returns.  The
    contacts come out in the order they are stored; a stored contact
    whose [signatureKey] is absent or empty comes out with its
    [publicKey] as [signatureKey], with the empty string when the
    [publicKey] is absent too, and with its other fields as they were. *)
Theorem getContacts_signatureKey (st : Storage.State) :
  let cs := (Storage.getContacts st).1 in
  (forall c : Storage.Contact, c ∈ cs -> is_Some (c !! "signatureKey")) /\
  (forall (id : string) (c : Storage.Contact),
     (Storage.getContactById id st).1 = Some c ->
     is_Some (c !! "signatureKey")) /\
  length cs = length (Storage.loadContacts st) /\
  (forall (i : nat) (c : Storage.Contact),
     Storage.loadContacts st !! i = Some c ->
     exists c', cs !! i = Some c' /\
       (c !! "signatureKey" = None \/ c !! "signatureKey" = Some "" ->
        c' !! "signatureKey"
        = Some (match c !! "publicKey" with Some pk => pk | None => "" end) /\
        (forall k : string, k <> "signatureKey" -> c' !! k = c !! k))).
Proof.
  cbv zeta. cbn [Storage.getContacts fst].
  assert (Hall : forall c : Storage.Contact,
             c ∈ map Storage.ensureSignatureKey (Storage.loadContacts st) ->
             is_Some (c !! "signatureKey")).
  { intros c Hc. apply list_elem_of_fmap in Hc as (c0 & -> & _).
    apply ensureSignatureKey_defined. }
  split; [exact Hall|]. split; [|split].
  - intros id c Hf. unfold Storage.getContactById in Hf.
    cbn [Storage.getContacts fst] in Hf.
    apply find_some in Hf as [Hin _].
    apply Hall. now apply list_elem_of_In.
  - apply length_map.
  - intros i c Hi. exists (Storage.ensureSignatureKey c). split.
    + change (map Storage.ensureSignatureKey (Storage.loadContacts st))
        with (Storage.ensureSignatureKey <$> Storage.loadContacts st).
      now rewrite list_lookup_fmap, Hi.
    + apply ensureSignatureKey_fallback.
Qed.

Example getContacts_run :
  let st :=
    {| Storage.currentUser := None;
       Storage.contacts := [];
       Storage.messages := [];
       Storage.localStorage :=
         {| Storage.ls_userProfile := None;
            Storage.ls_contacts :=
              Some [ {[ "id" := "alice"; "publicKey" := "04a1" ]};
                     {[ "id" := "bob"; "signatureKey" := "" ]};
                     {[ "id" := "carol"; "publicKey" := "04c3";
                        "signatureKey" := "51c3" ]} ];
            Storage.ls_messages := None |} |} in
  map (fun c : Storage.Contact => c !! "signatureKey") (Storage.getContacts st).1
  = [Some "04a1"; Some ""; Some "51c3"].
Proof. vm_compute. reflexivity. Qed.

(** ** The receive path *)

Section Receive.
Import MessageList.
Context {C : Crypto}.

(** X23.  What it takes for [onmessage] to change the view: a [MessageSent]
    frame whose content is a string that is not the content of a shown
    message, passes the proof check and decrypts; the view then gains
    one message, the decrypted one. *)
Lemma onmessage_gate (user : Storage.UserProfile) (now : Z)
    (event_data : string) (v : View) :
  onmessage user now event_data v <> v ->
  exists data c p,
    Json.parse event_data = Ok data /\
    Json.get data "event" = Ok (Some (JString "MessageSent")) /\
    Json.get data "encrypted_content" = Ok (Some (JString c)) /\
    existsb (fun msg => String.eqb c (content msg)) (messagesRef v) = false /\
    verifyZKProof c None = true /\
    decryptAES c (Storage.sessionKey user) = Ok p /\
    exists s, onmessage user now event_data v
              = append_message {| sender := s; content := p; timestamp := now |} v.
Proof.
  unfold onmessage, receive. intros Hne.
  destruct (Json.parse event_data) as [data|]; cbn [bind] in *; [|easy].
  destruct (Json.get data "event") as [ev|] eqn:Hev; cbn [bind] in *; [|easy].
  destruct (is_string ev "MessageSent") eqn:Hms; [|easy].
  destruct (Json.get data "encrypted_content") as [ec|] eqn:Hec;
    cbn [bind] in *; [|easy].
  destruct (existsb _ (messagesRef v)) eqn:Hdup; [easy|].
  destruct ec as [[| | |c| |]|]; cbn [as_string bind] in *; try easy.
  destruct (verifyZKProof c None) eqn:Hzk; cbn [negb] in *; [|easy].
  destruct (decryptAES c (Storage.sessionKey user)) as [p|] eqn:Hd;
    cbn [bind] in *; [|easy].
  destruct (Json.get data "sender") as [s|] eqn:Hs; cbn [bind] in *; [|easy].
  assert (Hevent : ev = Some (JString "MessageSent")).
  { destruct ev as [[| | |e| |]|]; cbn in Hms; try discriminate.
    apply String.eqb_eq in Hms. now subst. }
  subst ev. exists data, c, p.
  split; [reflexivity|]. split; [exact Hev|]. split; [exact Hec|].
  split; [exact Hdup|]. split; [exact Hzk|]. split; [exact Hd|].
  now exists s.
Qed.

(** With a proof check that fails, nothing is delivered: the view is
    the one before. *)
Lemma onmessage_unverified (user : Storage.UserProfile) (now : Z)
    (event_data : string) (v : View) :
  proof_verified event_data = false ->
  onmessage user now event_data v = v.
Proof.
  unfold proof_verified, onmessage, receive. intros Hp.
  destruct (Json.parse event_data) as [data|]; cbn [bind]; [|easy].
  destruct (Json.get data "event") as [ev|]; cbn [bind]; [|easy].
  destruct (is_string ev "MessageSent"); [|easy].
  destruct (Json.get data "encrypted_content") as [ec|]; cbn [bind]; [|easy].
  destruct (existsb _ (messagesRef v)); [easy|].
  destruct ec as [[| | |c| |]|]; cbn [as_string bind]; try easy.
  now rewrite Hp.
Qed.

Lemma fetchMessages_unverified (user : option Storage.UserProfile) (now : Z)
    (response : result json) (v : View) :
  (forall c, verifyZKProof c None = false) ->
  fetchMessages user now response v = set_loading false v.
Proof.
  intros Hno. unfold fetchMessages, fetch.
  destruct user as [u|]; cbn [bind]; [|easy].
  destruct response as [r|]; cbn [bind]; [|easy].
  destruct (Json.get r "encrypted_content") as [ec|]; cbn [bind]; [|easy].
  destruct (as_string ec) as [c|]; cbn [bind]; [|easy].
  now rewrite Hno.
Qed.

(** A frame that passes every test of the handler is delivered. *)
Lemma onmessage_delivers (user : Storage.UserProfile) (now : Z)
    (event_data : string) (data : json) (c p : string) (s : jsval) (v : View) :
  Json.parse event_data = Ok data ->
  Json.get data "event" = Ok (Some (JString "MessageSent")) ->
  Json.get data "encrypted_content" = Ok (Some (JString c)) ->
  Json.get data "sender" = Ok s ->
  existsb (fun msg => String.eqb c (content msg)) (messagesRef v) = false ->
  verifyZKProof c None = true ->
  decryptAES c (Storage.sessionKey user) = Ok p ->
  onmessage user now event_data v
  = append_message {| sender := s; content := p; timestamp := now |} v.
Proof.
  intros Hp He Hc Hs Hdup Hzk Hd. unfold onmessage, receive.
  rewrite Hp. cbn [bind]. rewrite He. cbn [bind is_string].
  rewrite String.eqb_refl, Hc. cbn [bind is_string].
  rewrite Hdup. cbn [as_string bind]. rewrite Hzk. cbn [negb].
  rewrite Hd. cbn [bind]. rewrite Hs. reflexivity.
Qed.

(** X24.  The duplicate check compares the content of the shown messages,
    which is decrypted, with the content of the frame, which is
    encrypted: a frame that was delivered, and whose decrypted content is
    not its encrypted content, is delivered again. *)
Lemma onmessage_twice (user : Storage.UserProfile) (t1 t2 : Z)
    (event_data : string) (data : json) (c p : string) (s : jsval) (v : View) :
  Json.parse event_data = Ok data ->
  Json.get data "event" = Ok (Some (JString "MessageSent")) ->
  Json.get data "encrypted_content" = Ok (Some (JString c)) ->
  Json.get data "sender" = Ok s ->
  existsb (fun msg => String.eqb c (content msg)) (messagesRef v) = false ->
  messagesRef v = messages v ->
  verifyZKProof c None = true ->
  decryptAES c (Storage.sessionKey user) = Ok p ->
  p <> c ->
  messages (onmessage user t2 event_data (onmessage user t1 event_data v))
  = messages v ++ [ {| sender := s; content := p; timestamp := t1 |};
                    {| sender := s; content := p; timestamp := t2 |} ].
Proof.
  intros Hp He Hc Hs Hdup Href Hzk Hd Hne.
  rewrite (onmessage_delivers user t1 event_data data c p s v) by assumption.
  rewrite (onmessage_delivers user t2 event_data data c p s) by
    (try assumption; cbn [append_message messagesRef];
     rewrite existsb_app, <- Href, Hdup; cbn [existsb content orb];
     rewrite orb_false_r; apply String.eqb_neq; congruence).
  cbn [append_message messages]. now rewrite <- app_assoc.
Qed.

End Receive.

(** No envelope passes the proof check of the crypto module as the
    component calls it, without the proof. *)
Lemma proof_never_verified (P : Platform) (event_data : string) :
  MessageList.proof_verified (C := cryptoNist P) event_data = false /\
  MessageList.proof_verified (C := cryptoHybrid P) event_data = false.
Proof.
  unfold MessageList.proof_verified.
  destruct (Json.parse event_data) as [data|]; [|easy].
  destruct (Json.get data "encrypted_content") as [[[| | |c| |]|]|]; easy.
Qed.


(** On every platform and for every frame: the handler accepts nothing,
    and [fetchMessages] adds nothing. *)
Lemma no_envelope_is_accepted
    (P : Platform) (user : Storage.UserProfile) (now : Z)
    (event_data : string) (response : result json) (v : MessageList.View) :
  MessageList.onmessage (C := cryptoNist P) user now event_data v = v /\
  MessageList.onmessage (C := cryptoHybrid P) user now event_data v = v /\
  MessageList.messages
    (MessageList.fetchMessages (C := cryptoNist P) (Some user) now response v)
  = MessageList.messages v /\
  MessageList.messages
    (MessageList.fetchMessages (C := cryptoHybrid P) (Some user) now response v)
  = MessageList.messages v.
Proof.
  destruct (proof_never_verified P event_data) as [Hn Hh].
  split; [now apply (onmessage_unverified (C := cryptoNist P))|].
  split; [now apply (onmessage_unverified (C := cryptoHybrid P))|].
  split.
  - now rewrite (fetchMessages_unverified (C := cryptoNist P)).
  - now rewrite (fetchMessages_unverified (C := cryptoHybrid P)).
Qed.

(** ** Duplicates *)

(** C6, the code at the failing input.  The frame that carries Bob's
    envelope is received twice.  With the crypto module as it is, no
    message is added: the proof check rejects both copies.  With a proof
    check that lets the envelope through, two messages are added: the
    duplicate check looks for the encrypted content among the decrypted
    ones.  In neither case is exactly one message added. *)
Theorem duplicate_envelope_not_delivered_once :
  let f := MessageList.frame TestChannel.envelope "alice" in
  let twice (C : Crypto) :=
    MessageList.onmessage TestChannel.bob 2 f
      (MessageList.onmessage TestChannel.bob 1 f TestChannel.empty) in
  MessageList.messages (twice (cryptoNist (TestPlatform.platform []))) = [] /\
  MessageList.messages (twice (cryptoHybrid (TestPlatform.platform []))) = [] /\
  MessageList.messages (twice TestChannel.permissive)
  = [ {| MessageList.sender := Some (JString "alice");
         MessageList.content := "hello"; MessageList.timestamp := 1 |};
      {| MessageList.sender := Some (JString "alice");
         MessageList.content := "hello"; MessageList.timestamp := 2 |} ].
Proof. cbv zeta. split; [|split]; vm_compute; reflexivity. Qed.

(** On every platform, and whatever the frame, receiving it twice adds
    nothing. *)
Lemma duplicate_envelope_never_delivered
    (P : Platform) (user : Storage.UserProfile) (t1 t2 : Z)
    (event_data : string) (v : MessageList.View) :
  MessageList.onmessage (C := cryptoNist P) user t2 event_data
    (MessageList.onmessage (C := cryptoNist P) user t1 event_data v) = v.
Proof.
  destruct (proof_never_verified P event_data) as [Hn _].
  now rewrite !(onmessage_unverified (C := cryptoNist P)).
Qed.

(** ** The reconnect loop *)

Section Reconnect.
Import MessageList.

(** [socket.close()] on a socket that is not closed yet leaves a
    reconnect timer behind, as a close from the transport does. *)
Lemma close_schedules_reconnect (i : nat) (ch : Channel) :
  sockets ch !! i = Some OPEN \/ sockets ch !! i = Some CONNECTING ->
  timers (close i ch) = S (timers ch) /\
  sockets (close i ch) !! i = Some CLOSED /\
  close i ch = transport_close i ch.
Proof.
  intros H. unfold close, transport_close.
  assert (Hlt : i < length (sockets ch))
    by (destruct H as [H|H]; apply lookup_lt_Some in H; exact H).
  destruct H as [-> | ->]; cbn [onclose set_state timers sockets];
    (split; [reflexivity|]); (split; [|reflexivity]);
    now apply list_lookup_insert_eq.
Qed.

(** A pending timer that runs opens a new socket. *)
Lemma timer_fire_connects (ch : Channel) :
  0 < timers ch ->
  sockets (timer_fire ch) = sockets ch ++ [CONNECTING] /\
  ws (timer_fire ch) = Some (length (sockets ch)) /\
  ~ disconnected (timer_fire ch).
Proof.
  intros H. unfold timer_fire. destruct (timers ch) as [|n]; [lia|].
  cbn [connectWebSocket sockets ws]. repeat split.
  unfold disconnected. cbn [connectWebSocket sockets].
  rewrite Forall_app. intros [_ Hc]. inversion Hc as [|? ? Hx]; discriminate.
Qed.

(** A close by the transport is followed by a reconnection. *)
Lemma transport_close_reconnects (i : nat) (ch : Channel) :
  sockets ch !! i = Some OPEN ->
  sockets (timer_fire (transport_close i ch))
  = <[i := CLOSED]> (sockets ch) ++ [CONNECTING].
Proof.
  intros H. unfold transport_close. rewrite H.
  unfold timer_fire. cbn [onclose set_state timers].
  reflexivity.
Qed.

End Reconnect.

(** C7, the code at the failing input.  The component connects, the
    socket opens, and the socket is closed with [close()].  All sockets
    are then closed, but a reconnect timer is pending; when it runs, a new
    socket is made, which opens and subscribes again.  [onclose] does the
    same after [close()] as after a close by the transport. *)
Theorem explicit_close_is_followed_by_reconnect :
  let ch1 :=
    MessageList.transport_open 0
      (MessageList.effect (Some TestChannel.bob) MessageList.initial) in
  let ch2 := MessageList.cleanup (Some 0) ch1 in
  let ch3 := MessageList.timer_fire ch2 in
  let ch4 := MessageList.transport_open 1 ch3 in
  MessageList.sockets ch1 = [MessageList.OPEN] /\
  MessageList.sockets ch2 = [MessageList.CLOSED] /\
  MessageList.disconnected ch2 /\
  MessageList.timers ch2 = 1 /\
  ch2 = MessageList.transport_close 0 ch1 /\
  MessageList.sockets ch3 = [MessageList.CLOSED; MessageList.CONNECTING] /\
  MessageList.sockets ch4 = [MessageList.CLOSED; MessageList.OPEN] /\
  ~ MessageList.disconnected ch4 /\
  MessageList.sent ch4
  = [(0, MessageList.subscription); (1, MessageList.subscription)].
Proof.
  cbv zeta. repeat (split; [reflexivity|]).
  split; [repeat constructor|].
  repeat (split; [reflexivity|]).
  split; [|reflexivity].
  intros H. inversion H as [|? ? _ H']. inversion H' as [|? ? Hx _].
  discriminate Hx.
Qed.

(** The cleanup that a first render leaves has [ws] still [null]: it
    closes nothing, and the socket stays open. *)
Example cleanup_of_first_render :
  let ch1 :=
    MessageList.transport_open 0
      (MessageList.effect (Some TestChannel.bob) MessageList.initial) in
  MessageList.cleanup (MessageList.ws MessageList.initial) ch1 = ch1.
Proof. reflexivity. Qed.

(** * Further properties of the store *)

Section StoreProfile.
Import Storage.

(** X1.  A saved profile is the one [getUserProfile] returns, at once and
    after the page is loaded again; the first call after the reload reads
    it from [localStorage] and keeps it in memory, so that a second call
    changes nothing. *)
Theorem saveUserProfile_survives_reload (profile : UserProfile) (st : State) :
  let saved := saveUserProfile profile st in
  let restored := (getUserProfile (reload saved)).2 in
  getUserProfile saved = (Some profile, saved) /\
  (getUserProfile (reload saved)).1 = Some profile /\
  currentUser restored = Some profile /\
  getUserProfile restored = (Some profile, restored).
Proof. cbv zeta. repeat split. Qed.

End StoreProfile.

Section StoreContacts.
Import Storage.

(** The list [saveContact] leaves in memory. *)
Lemma saveContact_contacts (contact : Contact) (st : State) :
  contacts (saveContact contact st)
  = match findIndex (fun c => same_id c contact) (contacts st) with
    | Some k => <[k := contact]> (contacts st)
    | None => contacts st ++ [contact]
    end.
Proof. reflexivity. Qed.

Lemma saveContact_nonempty (contact : Contact) (st : State) :
  contacts (saveContact contact st) <> [].
Proof.
  rewrite saveContact_contacts.
  destruct (findIndex _ (contacts st)) as [k|] eqn:Hf.
  - destruct (contacts st) as [|x l]; [discriminate Hf|].
    destruct k; discriminate.
  - destruct (contacts st); discriminate.
Qed.

Lemma loadContacts_nonempty (st : State) :
  contacts st <> [] -> loadContacts st = contacts st.
Proof. unfold loadContacts. now destruct (contacts st). Qed.

Lemma same_id_false (x contact : Contact) (id : string) :
  contact !! "id" = Some id -> same_id x contact = false -> has_id id x = false.
Proof.
  unfold same_id, has_id. intros Hc Hx.
  apply bool_decide_eq_false in Hx. apply bool_decide_eq_false. congruence.
Qed.

Lemma same_id_true (x contact : Contact) :
  same_id x contact = true -> x !! "id" = contact !! "id".
Proof. unfold same_id. now intros H%bool_decide_eq_true. Qed.

(** Where [saveContact] puts the contact, the search by its [id] finds it. *)
Lemma find_upsert (contact : Contact) (id : string) (l : list Contact) :
  contact !! "id" = Some id ->
  List.find (has_id id)
    match findIndex (fun c => same_id c contact) l with
    | Some k => <[k := contact]> l
    | None => l ++ [contact]
    end = Some contact.
Proof.
  intros Hid.
  assert (Hc : has_id id contact = true)
    by (unfold has_id; now apply bool_decide_eq_true).
  induction l as [|x l IH]; cbn [findIndex app List.find].
  - now rewrite Hc.
  - destruct (same_id x contact) eqn:Hx.
    + cbn. now rewrite Hc.
    + pose proof (same_id_false x contact id Hid Hx) as Hn.
      destruct (findIndex _ l) as [k|]; cbn [option_map];
        cbn; now rewrite Hn.
Qed.

(** Elsewhere the search is as before. *)
Lemma find_upsert_other (contact : Contact) (id : string) (l : list Contact) :
  contact !! "id" <> Some id ->
  List.find (has_id id)
    match findIndex (fun c => same_id c contact) l with
    | Some k => <[k := contact]> l
    | None => l ++ [contact]
    end = List.find (has_id id) l.
Proof.
  intros Hid.
  assert (Hc : has_id id contact = false)
    by (unfold has_id; now apply bool_decide_eq_false).
  induction l as [|x l IH]; cbn [findIndex app List.find].
  - now rewrite Hc.
  - destruct (same_id x contact) eqn:Hx.
    + cbn. rewrite Hc.
      apply same_id_true in Hx.
      assert (Hn : has_id id x = false)
        by (unfold has_id; apply bool_decide_eq_false; congruence).
      now rewrite Hn.
    + destruct (findIndex _ l) as [k|]; cbn [option_map]; cbn;
        destruct (has_id id x); easy.
Qed.

Lemma ensureSignatureKey_id (c : Contact) :
  ensureSignatureKey c !! "id" = c !! "id".
Proof.
  unfold ensureSignatureKey. destruct (negb _); [|reflexivity].
  now rewrite lookup_insert_ne.
Qed.

Lemma find_ensure (id : string) (l : list Contact) :
  List.find (has_id id) (map ensureSignatureKey l)
  = option_map ensureSignatureKey (List.find (has_id id) l).
Proof.
  induction l as [|x l IH]; [reflexivity|].
  cbn [map List.find]. unfold has_id at 1 3.
  rewrite ensureSignatureKey_id.
  destruct (bool_decide (x !! "id" = Some id)); [reflexivity|exact IH].
Qed.

Lemma getContactById_loaded (id : string) (st : State) :
  (getContactById id st).1
  = option_map ensureSignatureKey (List.find (has_id id) (loadContacts st)).
Proof. unfold getContactById. cbn. apply find_ensure. Qed.

End StoreContacts.

(** X2.  A contact that has an [id] is found under it once it is saved,
    whatever the store held: [getContactById] returns the saved contact,
    with its [signatureKey] filled in as [getContacts] does. *)
Theorem getContactById_saveContact
    (contact : Storage.Contact) (id : string) (st : Storage.State) :
  contact !! "id" = Some id ->
  (Storage.getContactById id (Storage.saveContact contact st)).1
  = Some (Storage.ensureSignatureKey contact).
Proof.
  intros Hid. rewrite getContactById_loaded.
  rewrite loadContacts_nonempty by apply saveContact_nonempty.
  rewrite saveContact_contacts, (find_upsert contact id _ Hid). reflexivity.
Qed.

Lemma getContactById_saveContact_witness :
  let alice : Storage.Contact := {[ "id" := "alice"; "publicKey" := "04a1" ]} in
  let old : Storage.Contact := {[ "id" := "alice"; "signatureKey" := "51a1" ]} in
  let st := Storage.saveContact old
              (Storage.saveContact {[ "id" := "bob" ]}
                 (Storage.init
                    {| Storage.ls_userProfile := None;
                       Storage.ls_contacts := None;
                       Storage.ls_messages := None |})) in
  alice !! "id" = Some "alice" /\
  (Storage.getContactById "alice" (Storage.saveContact alice st)).1
  = Some (Storage.ensureSignatureKey alice).
Proof.
  cbv zeta. split; [reflexivity|].
  apply getContactById_saveContact. reflexivity.
Defined.

(** X3.  Saving a contact leaves the contacts of every other [id] as they
    were, when the contacts are in memory. *)
Theorem getContactById_saveContact_other
    (contact : Storage.Contact) (id : string) (st : Storage.State) :
  contact !! "id" <> Some id ->
  Storage.contacts st <> [] ->
  (Storage.getContactById id (Storage.saveContact contact st)).1
  = (Storage.getContactById id st).1.
Proof.
  intros Hid Hne. rewrite !getContactById_loaded.
  rewrite loadContacts_nonempty by apply saveContact_nonempty.
  rewrite (loadContacts_nonempty st Hne).
  now rewrite saveContact_contacts, (find_upsert_other contact id _ Hid).
Qed.

Lemma getContactById_saveContact_other_witness :
  let alice : Storage.Contact := {[ "id" := "alice"; "publicKey" := "04a1" ]} in
  let st := Storage.saveContact {[ "id" := "bob"; "publicKey" := "04b2" ]}
              (Storage.init
                 {| Storage.ls_userProfile := None;
                    Storage.ls_contacts := None;
                    Storage.ls_messages := None |}) in
  (alice !! "id" <> Some "bob" /\ Storage.contacts st <> []) /\
  (Storage.getContactById "bob" (Storage.saveContact alice st)).1
  = (Storage.getContactById "bob" st).1.
Proof.
  cbv zeta.
  assert (H1 : ({[ "id" := "alice"; "publicKey" := "04a1" ]} : Storage.Contact)
               !! "id" <> Some "bob") by (vm_compute; intros H; discriminate H).
  assert (H2 : Storage.contacts
                 (Storage.saveContact {[ "id" := "bob"; "publicKey" := "04b2" ]}
                    (Storage.init
                       {| Storage.ls_userProfile := None;
                          Storage.ls_contacts := None;
                          Storage.ls_messages := None |})) <> [])
    by apply saveContact_nonempty.
  split; [split; assumption|].
  exact (getContactById_saveContact_other _ "bob" _ H1 H2).
Defined.

Section StoreContactsInvariant.
Import Storage.

(** The [id]s after [saveContact]: the same list when the [id] was there,
    one more at the end when it was not. *)
Lemma ids_upsert (contact : Contact) (l : list Contact) :
  let l' := match findIndex (fun c => same_id c contact) l with
            | Some k => <[k := contact]> l
            | None => l ++ [contact]
            end in
  (In (contact !! "id") (ids l) /\ ids l' = ids l) \/
  (~ In (contact !! "id") (ids l) /\ ids l' = ids l ++ [contact !! "id"]).
Proof.
  cbv zeta. unfold ids. induction l as [|x l IH]; cbn [findIndex].
  - right. split; [intros []|reflexivity].
  - destruct (same_id x contact) eqn:Hx.
    + left. apply same_id_true in Hx.
      change (<[0:=contact]> (x :: l)) with (contact :: l).
      cbn [map]. rewrite Hx. split; [now left|reflexivity].
    + assert (Hne : x !! "id" <> contact !! "id")
        by (unfold same_id in Hx; now apply bool_decide_eq_false in Hx).
      destruct (findIndex _ l) as [k|]; cbn [option_map].
      * change (<[S k:=contact]> (x :: l)) with (x :: <[k:=contact]> l).
        cbn [map app].
        destruct IH as [[Hin ->]|[Hnin ->]].
        -- left. split; [now right|reflexivity].
        -- right. split; [intros [Hin|Hin]; easy|reflexivity].
      * cbn [map app].
        destruct IH as [[Hin ->]|[Hnin ->]].
        -- left. split; [now right|reflexivity].
        -- right. split; [intros [Hin|Hin]; easy|reflexivity].
Qed.

Lemma contact_in_upsert (contact : Contact) (l : list Contact) :
  In contact
    match findIndex (fun c => same_id c contact) l with
    | Some k => <[k := contact]> l
    | None => l ++ [contact]
    end.
Proof.
  induction l as [|x l IH]; cbn [findIndex app]; [now left|].
  destruct (same_id x contact).
  - now left.
  - destruct (findIndex _ l) as [k|]; cbn [option_map].
    + change (<[S k:=contact]> (x :: l)) with (x :: <[k:=contact]> l).
      now right.
    + now right.
Qed.

End StoreContactsInvariant.

(** X4.  [saveContact] keeps the [id]s of the contacts in memory distinct.
    When the [id] of the contact is among them, the list of [id]s is
    unchanged; when it is not, the list gets that [id] at its end.  In
    both cases the contact is in the list afterwards. *)
Theorem saveContact_keeps_ids_distinct
    (contact : Storage.Contact) (st : Storage.State) :
  NoDup (Storage.ids (Storage.contacts st)) ->
  NoDup (Storage.ids (Storage.contacts (Storage.saveContact contact st))) /\
  (In (contact !! "id") (Storage.ids (Storage.contacts st)) ->
   Storage.ids (Storage.contacts (Storage.saveContact contact st))
   = Storage.ids (Storage.contacts st)) /\
  (~ In (contact !! "id") (Storage.ids (Storage.contacts st)) ->
   Storage.ids (Storage.contacts (Storage.saveContact contact st))
   = Storage.ids (Storage.contacts st) ++ [contact !! "id"]) /\
  In contact (Storage.contacts (Storage.saveContact contact st)).
Proof.
  intros Hnd. rewrite saveContact_contacts.
  split; [|split; [|split]].
  - destruct (ids_upsert contact (Storage.contacts st)) as [[_ ->]|[Hnin ->]];
      [exact Hnd|].
    apply NoDup_app. split; [exact Hnd|]. split; [|apply NoDup_singleton].
    intros x Hx Hx'. apply list_elem_of_singleton in Hx'. subst.
    apply Hnin. now apply list_elem_of_In.
  - intros Hin.
    destruct (ids_upsert contact (Storage.contacts st)) as [[_ H]|[Hnin _]];
      [exact H|contradiction].
  - intros Hnin.
    destruct (ids_upsert contact (Storage.contacts st)) as [[Hin _]|[_ H]];
      [contradiction|exact H].
  - apply contact_in_upsert.
Qed.

Lemma saveContact_keeps_ids_distinct_witness :
  let st := Storage.saveContact {[ "id" := "bob"; "publicKey" := "04b2" ]}
              (Storage.init
                 {| Storage.ls_userProfile := None;
                    Storage.ls_contacts := None;
                    Storage.ls_messages := None |}) in
  let bob' : Storage.Contact := {[ "id" := "bob"; "publicKey" := "04ff" ]} in
  NoDup (Storage.ids (Storage.contacts st)) /\
  NoDup (Storage.ids (Storage.contacts (Storage.saveContact bob' st))) /\
  (In (bob' !! "id") (Storage.ids (Storage.contacts st)) ->
   Storage.ids (Storage.contacts (Storage.saveContact bob' st))
   = Storage.ids (Storage.contacts st)) /\
  (~ In (bob' !! "id") (Storage.ids (Storage.contacts st)) ->
   Storage.ids (Storage.contacts (Storage.saveContact bob' st))
   = Storage.ids (Storage.contacts st) ++ [bob' !! "id"]) /\
  In bob' (Storage.contacts (Storage.saveContact bob' st)).
Proof.
  cbv zeta.
  assert (H : NoDup (Storage.ids (Storage.contacts
                (Storage.saveContact {[ "id" := "bob"; "publicKey" := "04b2" ]}
                   (Storage.init
                      {| Storage.ls_userProfile := None;
                         Storage.ls_contacts := None;
                         Storage.ls_messages := None |})))))
    by (cbn; apply NoDup_singleton).
  split; [exact H|].
  exact (saveContact_keeps_ids_distinct _ _ H).
Defined.

Section StoreContactsReload.
Import Storage.

Lemma saveContact_persisted (contact : Contact) (st : State) :
  ls_contacts (localStorage (saveContact contact st))
  = Some (contacts (saveContact contact st)).
Proof. reflexivity. Qed.

Lemma ensureSignatureKey_idempotent (c : Contact) :
  ensureSignatureKey (ensureSignatureKey c) = ensureSignatureKey c.
Proof.
  destruct (ensureSignatureKey_defined c) as [sk Hsk].
  unfold ensureSignatureKey at 1.
  destruct (truthy (ensureSignatureKey c !! "signatureKey")) eqn:Ht;
    [reflexivity|]. cbn [negb].
  (* the key is defined and empty: the fallback wrote it, or it was so *)
  unfold ensureSignatureKey in *.
  destruct (truthy (c !! "signatureKey")) eqn:Hc; cbn [negb] in *.
  - congruence.
  - rewrite lookup_insert_eq in Ht. rewrite insert_insert_eq.
    f_equal. rewrite lookup_insert_ne by discriminate.
    unfold truthy in Ht. unfold or_empty at 1.
    destruct (or_empty (c !! "publicKey")) eqn:Ho; [|discriminate Ht].
    unfold or_empty in *.
    destruct (c !! "publicKey") as [pk|]; [|reflexivity].
    destruct (truthy (Some pk)); [now subst|reflexivity].
Qed.

Lemma loadContacts_after (st : State) :
  loadContacts (getContacts st).2 = map ensureSignatureKey (loadContacts st).
Proof.
  unfold getContacts, loadContacts. cbn [snd contacts localStorage].
  destruct (contacts st) as [|c l]; [|reflexivity].
  destruct (ls_contacts (localStorage st)) as [[|c l]|]; reflexivity.
Qed.

End StoreContactsReload.

(** X5.  The contacts survive a reload once one is saved: after [saveContact]
    the page loaded again returns from [getContacts] the list it returned
    before the reload. *)
Theorem saveContact_survives_reload
    (contact : Storage.Contact) (st : Storage.State) :
  (Storage.getContacts (Storage.reload (Storage.saveContact contact st))).1
  = (Storage.getContacts (Storage.saveContact contact st)).1.
Proof.
  unfold Storage.getContacts. cbn [fst].
  rewrite (loadContacts_nonempty (Storage.saveContact contact st))
    by apply saveContact_nonempty.
  unfold Storage.loadContacts, Storage.reload, Storage.init.
  cbn [Storage.contacts Storage.localStorage].
  now rewrite saveContact_persisted.
Qed.

(** X6.  [saveContact] does not read [localStorage]: on a page just loaded it
    stores the one contact in place of the stored list, and the contacts
    that were stored are not returned any more, before or after another
    reload. *)
Theorem saveContact_before_load_replaces_stored
    (contact : Storage.Contact) (ls : Storage.LocalStorage) :
  let st := Storage.saveContact contact (Storage.init ls) in
  Storage.ls_contacts (Storage.localStorage st) = Some [contact] /\
  (Storage.getContacts st).1 = [Storage.ensureSignatureKey contact] /\
  (Storage.getContacts (Storage.reload st)).1
  = [Storage.ensureSignatureKey contact].
Proof. cbv zeta. repeat split. Qed.

(** X7.  [getContacts] twice is [getContacts] once: the second call returns
    the same list and leaves the store as the first left it. *)
Theorem getContacts_idempotent (st : Storage.State) :
  Storage.getContacts (Storage.getContacts st).2 = Storage.getContacts st.
Proof.
  unfold Storage.getContacts at 1 3. cbn [snd].
  rewrite loadContacts_after, map_map.
  rewrite (map_ext _ _ ensureSignatureKey_idempotent). reflexivity.
Qed.

(** ** Messages in the store *)

Section StoreMessages.
Import Storage.

Lemma getMessages_result (userId1 userId2 : string) (st : State) :
  (getMessages userId1 userId2 st).1
  = List.filter (between userId1 userId2) (loadMessages st).
Proof. reflexivity. Qed.

Lemma loadMessages_nonempty (st : State) :
  messages st <> [] -> loadMessages st = messages st.
Proof. unfold loadMessages. now destruct (messages st). Qed.

Lemma addMessage_nonempty (message : Message) (st : State) :
  messages (addMessage message st) <> [].
Proof. cbn. now destruct (messages st). Qed.

Lemma between_sym (userId1 userId2 : string) (message : Message) :
  between userId1 userId2 message = between userId2 userId1 message.
Proof. unfold between. apply orb_comm. Qed.

Lemma markIfFrom_idempotent (contactId : string) (u : UserProfile) (m : Message) :
  markIfFrom contactId u (markIfFrom contactId u m) = markIfFrom contactId u m.
Proof.
  unfold markIfFrom.
  destruct (String.eqb (sender m) contactId && String.eqb (receiver m) (userId u))
    eqn:H; cbn [set_status sender receiver]; now rewrite H.
Qed.

Lemma markIfFrom_between (contactId : string) (u : UserProfile)
    (a b : string) (m : Message) :
  between a b (markIfFrom contactId u m) = between a b m.
Proof.
  unfold markIfFrom.
  now destruct (String.eqb (sender m) contactId
                && String.eqb (receiver m) (userId u)).
Qed.

Lemma getUserProfile_cached (st : State) (u : UserProfile) :
  (getUserProfile st).1 = Some u ->
  currentUser (getUserProfile st).2 = Some u.
Proof.
  unfold getUserProfile.
  destruct (currentUser st) eqn:Hc; cbn; [congruence|].
  destruct (ls_userProfile (localStorage st)); cbn; [easy|discriminate].
Qed.

End StoreMessages.

(** X8.  [getMessages] returns exactly the loaded messages that one of
    the two users sent to the other; so the two users can be given in
    either order. *)
Theorem getMessages_between (userId1 userId2 : string) (st : Storage.State) :
  (forall m : Storage.Message,
     In m (Storage.getMessages userId1 userId2 st).1 <->
     In m (Storage.loadMessages st) /\
     (Storage.sender m = userId1 /\ Storage.receiver m = userId2 \/
      Storage.sender m = userId2 /\ Storage.receiver m = userId1)) /\
  (Storage.getMessages userId2 userId1 st).1
  = (Storage.getMessages userId1 userId2 st).1.
Proof.
  rewrite !getMessages_result. split.
  - intros m. rewrite filter_In. unfold Storage.between.
    rewrite orb_true_iff, !andb_true_iff, !String.eqb_eq. reflexivity.
  - apply filter_ext. intros m. apply between_sym.
Qed.

(** X9.  When the messages are in memory, [addMessage] adds the message at the
    end of the conversation it belongs to and leaves every other
    conversation as it was. *)
Theorem getMessages_addMessage
    (message : Storage.Message) (userId1 userId2 : string) (st : Storage.State) :
  Storage.loadMessages st = Storage.messages st ->
  (Storage.getMessages userId1 userId2 (Storage.addMessage message st)).1
  = (Storage.getMessages userId1 userId2 st).1
    ++ (if Storage.between userId1 userId2 message then [message] else []).
Proof.
  intros Hl. rewrite !getMessages_result, Hl.
  rewrite loadMessages_nonempty by apply addMessage_nonempty.
  cbn [Storage.addMessage Storage.messages].
  rewrite List.filter_app. cbn [List.filter].
  now destruct (Storage.between userId1 userId2 message).
Qed.

Lemma getMessages_addMessage_witness :
  let msg i s r :=
    {| Storage.id := i; Storage.sender := s; Storage.receiver := r;
       Storage.content := "6976:6374"; Storage.timestamp := 0%Z;
       Storage.status := "unread" |} in
  let st := Storage.addMessage (msg "1" "alice" "bob")
              (Storage.init
                 {| Storage.ls_userProfile := None;
                    Storage.ls_contacts := None;
                    Storage.ls_messages := None |}) in
  Storage.loadMessages st = Storage.messages st /\
  (Storage.getMessages "alice" "bob"
     (Storage.addMessage (msg "2" "bob" "alice") st)).1
  = (Storage.getMessages "alice" "bob" st).1
    ++ (if Storage.between "alice" "bob" (msg "2" "bob" "alice")
        then [msg "2" "bob" "alice"] else []).
Proof.
  cbv zeta. split; [reflexivity|].
  apply getMessages_addMessage. reflexivity.
Defined.

(** X10.  The messages survive a reload once one is added: after [addMessage]
    the page loaded again returns from [getMessages] what it returned
    before the reload. *)
Theorem addMessage_survives_reload
    (message : Storage.Message) (userId1 userId2 : string) (st : Storage.State) :
  (Storage.getMessages userId1 userId2
     (Storage.reload (Storage.addMessage message st))).1
  = (Storage.getMessages userId1 userId2 (Storage.addMessage message st)).1.
Proof.
  rewrite !getMessages_result.
  rewrite (loadMessages_nonempty (Storage.addMessage message st))
    by apply addMessage_nonempty.
  reflexivity.
Qed.

(** X11.  [addMessage] does not read [localStorage]: on a page just loaded it
    stores the one message in place of the stored list, and the messages
    that were stored are not returned any more. *)
Theorem addMessage_before_load_replaces_stored
    (message : Storage.Message) (userId1 userId2 : string)
    (ls : Storage.LocalStorage) :
  let st := Storage.addMessage message (Storage.init ls) in
  Storage.ls_messages (Storage.localStorage st) = Some [message] /\
  (Storage.getMessages userId1 userId2 st).1
  = List.filter (Storage.between userId1 userId2) [message] /\
  (Storage.getMessages userId1 userId2 (Storage.reload st)).1
  = List.filter (Storage.between userId1 userId2) [message].
Proof. cbv zeta. repeat split. Qed.

(** X12.  [markMessagesAsRead] twice is [markMessagesAsRead] once. *)
Theorem markMessagesAsRead_idempotent (contactId : string) (st : Storage.State) :
  Storage.markMessagesAsRead contactId (Storage.markMessagesAsRead contactId st)
  = Storage.markMessagesAsRead contactId st.
Proof.
  unfold Storage.markMessagesAsRead at 2 3.
  destruct (Storage.getUserProfile st) as [[u|] st1] eqn:Hg.
  - pose proof (getUserProfile_cached st u) as Hc. rewrite Hg in Hc.
    specialize (Hc eq_refl). cbn [snd] in Hc.
    unfold Storage.markMessagesAsRead, Storage.getUserProfile.
    cbn [Storage.currentUser]. rewrite Hc.
    cbn [Storage.messages Storage.contacts Storage.localStorage
         Storage.currentUser].
    rewrite map_map, (map_ext _ _ (markIfFrom_idempotent contactId u)).
    reflexivity.
  - assert (Hst : st1 = st /\ (Storage.getUserProfile st).1 = None).
    { unfold Storage.getUserProfile in Hg.
      destruct (Storage.currentUser st) eqn:Hc; [congruence|].
      destruct (Storage.ls_userProfile (Storage.localStorage st)) eqn:Hl;
        [congruence|].
      unfold Storage.getUserProfile. rewrite Hc, Hl.
      split; [congruence|reflexivity]. }
    destruct Hst as [-> Hn].
    unfold Storage.markMessagesAsRead. now rewrite Hg.
Qed.

(** X13.  After [markMessagesAsRead contactId], [getMessagesForContact
    contactId] returns no message from the contact that is not read. *)
Theorem markMessagesAsRead_leaves_no_unread
    (contactId : string) (st : Storage.State) (m : Storage.Message) :
  In m (Storage.getMessagesForContact contactId
          (Storage.markMessagesAsRead contactId st)).1 ->
  Storage.sender m = contactId ->
  Storage.status m = "read".
Proof.
  unfold Storage.markMessagesAsRead.
  destruct (Storage.getUserProfile st) as [[u|] st1] eqn:Hg.
  - pose proof (getUserProfile_cached st u) as Hc. rewrite Hg in Hc.
    specialize (Hc eq_refl). cbn [snd] in Hc.
    unfold Storage.getMessagesForContact, Storage.getUserProfile.
    cbn [Storage.currentUser]. rewrite Hc. rewrite getMessages_result.
    unfold Storage.loadMessages.
    cbn [Storage.messages Storage.localStorage Storage.set_ls_messages
         Storage.ls_messages].
    set (l := map (Storage.markIfFrom contactId u) (Storage.messages st1)).
    assert (Hin : In m (List.filter (Storage.between (Storage.userId u) contactId) l)
                  -> Storage.sender m = contactId -> Storage.status m = "read").
    { intros Hin Hs. apply filter_In in Hin as [Hin Hb].
      subst l. apply in_map_iff in Hin as (m0 & <- & _).
      rewrite markIfFrom_between in Hb.
      destruct (markIfFrom_frame contactId u m0) as (_ & Hs0 & _).
      cbv zeta in Hs0. rewrite Hs0 in Hs.
      apply (proj1 (markIfFrom_status contactId u m0)).
      split; [exact Hs|].
      unfold Storage.between in Hb.
      apply orb_true_iff in Hb as [Hb|Hb];
        apply andb_true_iff in Hb as [H1 H2];
        apply String.eqb_eq in H1, H2; congruence. }
    destruct l; exact Hin.
  - assert (Hn : (Storage.getUserProfile st1).1 = None).
    { unfold Storage.getUserProfile in Hg.
      destruct (Storage.currentUser st) eqn:Hc; [congruence|].
      destruct (Storage.ls_userProfile (Storage.localStorage st)) eqn:Hl;
        [congruence|].
      injection Hg as <-. unfold Storage.getUserProfile. now rewrite Hc, Hl. }
    unfold Storage.getMessagesForContact.
    destruct (Storage.getUserProfile st1) as [[u|] st2]; [discriminate Hn|].
    intros [].
Qed.

Lemma markMessagesAsRead_leaves_no_unread_witness :
  let m1 :=
    {| Storage.id := "1"; Storage.sender := "alice"; Storage.receiver := "bob";
       Storage.content := "6976:6374"; Storage.timestamp := 0%Z;
       Storage.status := "unread" |} in
  let st :=
    Storage.addMessage m1
      (Storage.saveUserProfile
         {| Storage.userId := "bob"; Storage.sessionKey := "";
            Storage.starknetAddress := "" |}
         (Storage.init
            {| Storage.ls_userProfile := None; Storage.ls_contacts := None;
               Storage.ls_messages := None |})) in
  let m := Storage.set_status "read" m1 in
  (In m (Storage.getMessagesForContact "alice"
           (Storage.markMessagesAsRead "alice" st)).1 /\
   Storage.sender m = "alice") /\
  Storage.status m = "read".
Proof.
  cbv zeta.
  assert (H : In (Storage.set_status "read"
                    {| Storage.id := "1"; Storage.sender := "alice";
                       Storage.receiver := "bob";
                       Storage.content := "6976:6374"; Storage.timestamp := 0%Z;
                       Storage.status := "unread" |})
                (Storage.getMessagesForContact "alice"
                   (Storage.markMessagesAsRead "alice"
                      (Storage.addMessage
                         {| Storage.id := "1"; Storage.sender := "alice";
                            Storage.receiver := "bob";
                            Storage.content := "6976:6374";
                            Storage.timestamp := 0%Z;
                            Storage.status := "unread" |}
                         (Storage.saveUserProfile
                            {| Storage.userId := "bob"; Storage.sessionKey := "";
                               Storage.starknetAddress := "" |}
                            (Storage.init
                               {| Storage.ls_userProfile := None;
                                  Storage.ls_contacts := None;
                                  Storage.ls_messages := None |}))))).1)
    by (left; reflexivity).
  split; [split; [exact H|reflexivity]|].
  exact (markMessagesAsRead_leaves_no_unread "alice" _ _ H eq_refl).
Defined.

(** X14.  After [clearAllData] the store returns no profile, no contact and no
    message, at once and after a reload, whatever it held. *)
Theorem clearAllData_clears (st : Storage.State) (userId1 userId2 : string) :
  let cleared := Storage.clearAllData st in
  (Storage.getUserProfile cleared).1 = None /\
  (Storage.getContacts cleared).1 = [] /\
  (Storage.getMessages userId1 userId2 cleared).1 = [] /\
  (Storage.getUserProfile (Storage.reload cleared)).1 = None /\
  (Storage.getContacts (Storage.reload cleared)).1 = [] /\
  (Storage.getMessages userId1 userId2 (Storage.reload cleared)).1 = [] /\
  Storage.clearStorage st = cleared.
Proof. cbv zeta. repeat split. Qed.

(** X15.  [markMessagesAsRead] does not read the stored messages either: on a
    page just loaded, with a stored profile, it writes the empty list of
    the memory over the messages in [localStorage]. *)
Theorem markMessagesAsRead_before_load_replaces_stored
    (contactId userId1 userId2 : string) (ls : Storage.LocalStorage)
    (u : Storage.UserProfile) :
  Storage.ls_userProfile ls = Some u ->
  let st := Storage.markMessagesAsRead contactId (Storage.init ls) in
  Storage.ls_messages (Storage.localStorage st) = Some [] /\
  (Storage.getMessages userId1 userId2 st).1 = [] /\
  (Storage.getMessages userId1 userId2 (Storage.reload st)).1 = [].
Proof.
  intros Hu. cbv zeta.
  unfold Storage.markMessagesAsRead, Storage.getUserProfile, Storage.init.
  cbn [Storage.currentUser Storage.localStorage]. rewrite Hu.
  repeat split.
Qed.

Lemma markMessagesAsRead_before_load_replaces_stored_witness :
  let bob := {| Storage.userId := "bob"; Storage.sessionKey := "";
                Storage.starknetAddress := "" |} in
  let m1 :=
    {| Storage.id := "1"; Storage.sender := "alice"; Storage.receiver := "bob";
       Storage.content := "6976:6374"; Storage.timestamp := 0%Z;
       Storage.status := "unread" |} in
  let ls := {| Storage.ls_userProfile := Some bob; Storage.ls_contacts := None;
               Storage.ls_messages := Some [m1] |} in
  let st := Storage.markMessagesAsRead "alice" (Storage.init ls) in
  Storage.ls_userProfile ls = Some bob /\
  (Storage.getMessages "alice" "bob" (Storage.init ls)).1 = [m1] /\
  Storage.ls_messages (Storage.localStorage st) = Some [] /\
  (Storage.getMessages "alice" "bob" st).1 = [] /\
  (Storage.getMessages "alice" "bob" (Storage.reload st)).1 = [].
Proof.
  cbv zeta. split; [reflexivity|]. split; [reflexivity|].
  apply (markMessagesAsRead_before_load_replaces_stored "alice" "alice" "bob"
           {| Storage.ls_userProfile :=
                Some {| Storage.userId := "bob"; Storage.sessionKey := "";
                        Storage.starknetAddress := "" |};
              Storage.ls_contacts := None;
              Storage.ls_messages :=
                Some [ {| Storage.id := "1"; Storage.sender := "alice";
                          Storage.receiver := "bob";
                          Storage.content := "6976:6374";
                          Storage.timestamp := 0%Z;
                          Storage.status := "unread" |} ] |}
           {| Storage.userId := "bob"; Storage.sessionKey := "";
              Storage.starknetAddress := "" |}).
  reflexivity.
Defined.

(** * Further properties of the crypto module *)

Section CryptoEdges.
Context {P : Platform}.

Lemma importKey_invalid (raw : list byte) :
  valid_aes_key raw = false -> importKey raw = Throw DataError.
Proof. intros H. unfold importKey. now rewrite H. Qed.

End CryptoEdges.

(** X16.  In the hybrid version a key of more than 32 bytes locks the message
    once the post-quantum library is initialised: [encryptAES] cuts the
    key to 32 bytes and seals, and [decryptAES], given the envelope and
    the same key, raises [DataError].  When the library does not
    initialise, [encryptAES] raises what the initialisation raised. *)
Theorem hybrid_long_key_cannot_decrypt
    (P : Platform) (message key : string) :
  32 < length (Hex.decode key) ->
  (returns CryptoHybrid.pqcInit ->
   exists c, CryptoHybrid.encryptAES message key = Ok c /\
             CryptoHybrid.decryptAES c key = Throw DataError) /\
  (forall e, CryptoHybrid.pqcInit = Throw e ->
             CryptoHybrid.encryptAES message key = Throw e).
Proof.
  intros Hlen.
  assert (Hcut : valid_aes_key (firstn 32 (Hex.decode key)) = true).
  { unfold valid_aes_key. rewrite length_firstn.
    replace (Nat.min 32 (length (Hex.decode key))) with 32 by lia.
    reflexivity. }
  assert (Hbad : valid_aes_key (Hex.decode key) = false).
  { unfold valid_aes_key.
    destruct (Nat.eqb_spec (length (Hex.decode key)) 16); [lia|].
    destruct (Nat.eqb_spec (length (Hex.decode key)) 24); [lia|].
    destruct (Nat.eqb_spec (length (Hex.decode key)) 32); [lia|reflexivity]. }
  split.
  - intros [kem Hkem]. unfold CryptoHybrid.encryptAES.
    rewrite (importKey_valid _ Hcut). cbn [bind].
    unfold CryptoHybrid.generateKyberKeypair. rewrite Hkem. cbn [bind].
    destruct (kemKeypair kem "Kyber") as [pk sk]. cbn [bind publicKey].
    eexists; split; [reflexivity|].
    unfold CryptoHybrid.decryptAES. rewrite !colon_app.
    rewrite split_colon_app by apply hex_encode_no_colon.
    rewrite split_colon_app by apply hex_encode_no_colon.
    now rewrite (importKey_invalid _ Hbad).
  - intros e He. unfold CryptoHybrid.encryptAES.
    rewrite (importKey_valid _ Hcut). cbn [bind].
    unfold CryptoHybrid.generateKyberKeypair. now rewrite He.
Qed.

Lemma hybrid_long_key_cannot_decrypt_witness :
  let key := TestPlatform.key256 +:+ "00" in
  (32 < length (Hex.decode key) /\
   returns (CryptoHybrid.pqcInit (P := TestPlatform.platform []))) /\
  exists c,
    CryptoHybrid.encryptAES (P := TestPlatform.platform []) "hello" key = Ok c /\
    CryptoHybrid.decryptAES (P := TestPlatform.platform []) c key
    = Throw DataError.
Proof.
  cbv zeta.
  assert (H1 : 32 < length (Hex.decode (TestPlatform.key256 +:+ "00")))
    by (vm_compute; lia).
  assert (H2 : returns (CryptoHybrid.pqcInit (P := TestPlatform.platform [])))
    by (eexists; reflexivity).
  split; [split; assumption|].
  exact (proj1 (hybrid_long_key_cannot_decrypt (TestPlatform.platform [])
                  "hello" _ H1) H2).
Defined.

(** X17.  [decryptAES] on text without a colon raises [TypeError], whatever the
    key: the second component is missing before the key is looked at. *)
Theorem decryptAES_without_colon
    (P : Platform) (encryptedMessage key : string) :
  has_colon encryptedMessage = false ->
  CryptoNist.decryptAES encryptedMessage key = Throw TypeError /\
  CryptoHybrid.decryptAES encryptedMessage key = Throw TypeError.
Proof.
  intros H. unfold CryptoNist.decryptAES, CryptoHybrid.decryptAES.
  now rewrite (split_colon_plain _ H).
Qed.

Lemma decryptAES_without_colon_witness :
  has_colon "2a2a2a2a68656c6c6f" = false /\
  CryptoNist.decryptAES (P := TestPlatform.platform [])
    "2a2a2a2a68656c6c6f" "not a key" = Throw TypeError /\
  CryptoHybrid.decryptAES (P := TestPlatform.platform [])
    "2a2a2a2a68656c6c6f" "not a key" = Throw TypeError.
Proof.
  split; [reflexivity|].
  apply (decryptAES_without_colon (TestPlatform.platform [])). reflexivity.
Defined.

(** X18.  [decryptAES] reads the first two components of the envelope only:
    what follows a second colon does not count. *)
Theorem decryptAES_ignores_further_components
    (P : Platform) (ivHex encryptedHex rest key : string) :
  has_colon ivHex = false -> has_colon encryptedHex = false ->
  CryptoNist.decryptAES (ivHex +:+ ":" +:+ encryptedHex +:+ ":" +:+ rest) key
  = CryptoNist.decryptAES (ivHex +:+ ":" +:+ encryptedHex) key /\
  CryptoHybrid.decryptAES (ivHex +:+ ":" +:+ encryptedHex +:+ ":" +:+ rest) key
  = CryptoHybrid.decryptAES (ivHex +:+ ":" +:+ encryptedHex) key.
Proof.
  intros Hi He. unfold CryptoNist.decryptAES, CryptoHybrid.decryptAES.
  rewrite !colon_app.
  rewrite !(split_colon_app ivHex) by exact Hi.
  rewrite (split_colon_app encryptedHex) by exact He.
  rewrite (split_colon_plain encryptedHex) by exact He.
  split; reflexivity.
Qed.

Lemma decryptAES_ignores_further_components_witness :
  (has_colon "2a2a" = false /\ has_colon "6869" = false) /\
  CryptoNist.decryptAES (P := TestPlatform.platform [])
    ("2a2a" +:+ ":" +:+ "6869" +:+ ":" +:+ "a:b:c") TestPlatform.key256
  = CryptoNist.decryptAES (P := TestPlatform.platform [])
      ("2a2a" +:+ ":" +:+ "6869") TestPlatform.key256 /\
  CryptoHybrid.decryptAES (P := TestPlatform.platform [])
    ("2a2a" +:+ ":" +:+ "6869" +:+ ":" +:+ "a:b:c") TestPlatform.key256
  = CryptoHybrid.decryptAES (P := TestPlatform.platform [])
      ("2a2a" +:+ ":" +:+ "6869") TestPlatform.key256.
Proof.
  split; [split; reflexivity|].
  apply (decryptAES_ignores_further_components (TestPlatform.platform []));
    reflexivity.
Defined.

(** X19.  A session key made by [generateSessionKey] from 32 random bytes is a
    valid key: [encryptAES] accepts it and [decryptAES] opens the
    envelope with it, in the hybrid version (which has
    [generateSessionKey]) once the library is initialised, and in the
    later one. *)
Theorem generateSessionKey_usable
    (P : Platform) (HA : AesGcmCorrect P) (message : string) :
  length (getRandomValues 32) = 32 ->
  valid_key CryptoHybrid.generateSessionKey /\
  (returns CryptoHybrid.pqcInit ->
   exists c,
     CryptoHybrid.encryptAES message CryptoHybrid.generateSessionKey = Ok c /\
     CryptoHybrid.decryptAES c CryptoHybrid.generateSessionKey
     = Ok (utf8_decode (utf8_encode message))) /\
  (exists c,
     CryptoNist.encryptAES message CryptoHybrid.generateSessionKey = Ok c /\
     CryptoNist.decryptAES c CryptoHybrid.generateSessionKey
     = Ok (utf8_decode (utf8_encode message))).
Proof.
  intros Hlen.
  assert (Hk : valid_key CryptoHybrid.generateSessionKey).
  { unfold valid_key, CryptoHybrid.generateSessionKey, valid_aes_key.
    rewrite hex_decode_encode, Hlen. reflexivity. }
  split; [exact Hk|]. split.
  - intros Hinit. now apply hybrid_decrypt_encrypt.
  - now apply nist_decrypt_encrypt.
Qed.

Lemma generateSessionKey_usable_witness :
  length (getRandomValues (Platform := TestPlatform.platform []) 32) = 32 /\
  valid_key (CryptoHybrid.generateSessionKey (P := TestPlatform.platform [])) /\
  (returns (CryptoHybrid.pqcInit (P := TestPlatform.platform [])) ->
   exists c,
     CryptoHybrid.encryptAES (P := TestPlatform.platform []) "hello"
       (CryptoHybrid.generateSessionKey (P := TestPlatform.platform [])) = Ok c /\
     CryptoHybrid.decryptAES (P := TestPlatform.platform []) c
       (CryptoHybrid.generateSessionKey (P := TestPlatform.platform []))
     = Ok (utf8_decode (Platform := TestPlatform.platform [])
             (utf8_encode (Platform := TestPlatform.platform []) "hello"))) /\
  (exists c,
     CryptoNist.encryptAES (P := TestPlatform.platform []) "hello"
       (CryptoHybrid.generateSessionKey (P := TestPlatform.platform [])) = Ok c /\
     CryptoNist.decryptAES (P := TestPlatform.platform []) c
       (CryptoHybrid.generateSessionKey (P := TestPlatform.platform []))
     = Ok (utf8_decode (Platform := TestPlatform.platform [])
             (utf8_encode (Platform := TestPlatform.platform []) "hello"))).
Proof.
  split; [reflexivity|].
  apply (generateSessionKey_usable (TestPlatform.platform [])
           (test_platform_aes []) "hello").
  reflexivity.
Defined.

(** ** Identifiers and signatures *)

Lemma substring_hex (n : nat) (bs : list byte) :
  substring 0 (2 * n) (Hex.encode bs) = Hex.encode (firstn n bs).
Proof.
  revert bs. induction n as [|n IH]; intros bs.
  - cbn. now destruct (Hex.encode bs).
  - destruct bs as [|b bs]; [reflexivity|].
    replace (2 * S n) with (S (S (2 * n))) by lia.
    cbn [Hex.encode firstn substring]. now rewrite IH.
Qed.

(** X20.  The identifier holds the first 8 bytes of the public key and nothing
    else of it: two key pairs whose public keys start with the same 8
    bytes get the same identifier. *)
Theorem generateDID_collides_on_prefix (P P' : Platform) (lib lib' : PQC) :
  wasm_simd (Platform := P) = true -> wasm_init (Platform := P) = Ok lib ->
  wasm_simd (Platform := P') = true -> wasm_init (Platform := P') = Ok lib' ->
  firstn 8 (fst (kemKeypair lib "ML-KEM-1024"))
  = firstn 8 (fst (kemKeypair lib' "ML-KEM-1024")) ->
  exists r r',
    CryptoNist.generateDID (P := P) = Ok r /\
    CryptoNist.generateDID (P := P') = Ok r' /\
    did_publicKey r = Hex.encode (fst (kemKeypair lib "ML-KEM-1024")) /\
    did_publicKey r' = Hex.encode (fst (kemKeypair lib' "ML-KEM-1024")) /\
    did_id r = "did:tetracrypt:"
               +:+ Hex.encode (firstn 8 (fst (kemKeypair lib "ML-KEM-1024"))) /\
    did_id r = did_id r'.
Proof.
  intros Hs Hi Hs' Hi' Hpre.
  destruct (generateDID_returns P lib Hs Hi) as [_ (r & Hr & Hpk)].
  destruct (generateDID_returns P' lib' Hs' Hi') as [_ (r' & Hr' & Hpk')].
  exists r, r'. repeat (split; [assumption|]).
  assert (Hid : forall Q q k, CryptoNist.generateDID (P := Q) = Ok q ->
            did_publicKey q = Hex.encode k ->
            did_id q = "did:tetracrypt:" +:+ Hex.encode (firstn 8 k)).
  { intros Q q k Hq Hk.
    rewrite (generateDID_id Q q (or_intror Hq)), Hk.
    change 16 with (2 * 8). now rewrite (substring_hex 8 k). }
  split; [now apply (Hid P)|].
  rewrite (Hid P r _ Hr Hpk), (Hid P' r' _ Hr' Hpk'). now rewrite Hpre.
Qed.

Lemma generateDID_collides_on_prefix_witness :
  let s := [x01; x02; x03; x04; x05; x06; x07; x08; x09] in
  let s' := [x01; x02; x03; x04; x05; x06; x07; x08; x0a] in
  (firstn 8 (fst (kemKeypair (TestPlatform.pqc s) "ML-KEM-1024"))
   = firstn 8 (fst (kemKeypair (TestPlatform.pqc s') "ML-KEM-1024")) /\
   fst (kemKeypair (TestPlatform.pqc s) "ML-KEM-1024")
   <> fst (kemKeypair (TestPlatform.pqc s') "ML-KEM-1024")) /\
  exists r r',
    CryptoNist.generateDID (P := TestPlatform.platform s) = Ok r /\
    CryptoNist.generateDID (P := TestPlatform.platform s') = Ok r' /\
    did_publicKey r
    = Hex.encode (fst (kemKeypair (TestPlatform.pqc s) "ML-KEM-1024")) /\
    did_publicKey r'
    = Hex.encode (fst (kemKeypair (TestPlatform.pqc s') "ML-KEM-1024")) /\
    did_id r
    = "did:tetracrypt:"
      +:+ Hex.encode
            (firstn 8 (fst (kemKeypair (TestPlatform.pqc s) "ML-KEM-1024"))) /\
    did_id r = did_id r'.
Proof.
  cbv zeta. split; [split; [reflexivity|vm_compute; intros H; discriminate H]|].
  apply (generateDID_collides_on_prefix
           (TestPlatform.platform [x01; x02; x03; x04; x05; x06; x07; x08; x09])
           (TestPlatform.platform [x01; x02; x03; x04; x05; x06; x07; x08; x0a]));
    reflexivity.
Defined.

(** X21.  A signature travels as hexadecimal text without loss: what
    [verifySignature] hands to the library is the signature the library
    made in [signMessage], with the keys as the bytes their text stands
    for.  The later version signs and verifies under
    [SLH-DSA-SHAKE-256f], the hybrid one under [Dilithium]. *)
Theorem verifySignature_of_signMessage
    (P : Platform) (lib : PQC) (message : string) (sk pk : list byte) :
  wasm_simd = true -> wasm_init = Ok lib ->
  (exists sg,
     CryptoHybrid.signMessage message (Hex.encode sk) = Ok sg /\
     CryptoHybrid.verifySignature message sg (Hex.encode pk)
     = dsa_verify lib "Dilithium" (utf8_encode message)
         (dsa_sign lib "Dilithium" (utf8_encode message) sk) pk) /\
  (exists sg,
     CryptoNist.signMessage message (Hex.encode sk) = Ok sg /\
     CryptoNist.verifySignature message sg (Hex.encode pk)
     = dsa_verify lib "SLH-DSA-SHAKE-256f" (utf8_encode message)
         (dsa_sign lib "SLH-DSA-SHAKE-256f" (utf8_encode message) sk) pk).
Proof.
  intros Hs Hi. split.
  - unfold CryptoHybrid.signMessage, CryptoHybrid.verifySignature,
      CryptoHybrid.pqcInit. rewrite Hs, Hi. cbn [negb bind].
    eexists; split; [reflexivity|]. now rewrite !hex_decode_encode.
  - unfold CryptoNist.signMessage, CryptoNist.verifySignature,
      CryptoNist.pqcInit. rewrite Hs, Hi. cbn [negb bind].
    eexists; split; [reflexivity|]. now rewrite !hex_decode_encode.
Qed.

Lemma verifySignature_of_signMessage_witness :
  let P := TestPlatform.platform [x07] in
  let lib := TestPlatform.pqc [x07] in
  (wasm_simd (Platform := P) = true /\ wasm_init (Platform := P) = Ok lib) /\
  (exists sg,
     CryptoHybrid.signMessage (P := P) "hello" (Hex.encode [x01; x02]) = Ok sg /\
     CryptoHybrid.verifySignature (P := P) "hello" sg (Hex.encode [x01; x02])
     = dsa_verify lib "Dilithium" (utf8_encode (Platform := P) "hello")
         (dsa_sign lib "Dilithium" (utf8_encode (Platform := P) "hello")
            [x01; x02]) [x01; x02]) /\
  (exists sg,
     CryptoNist.signMessage (P := P) "hello" (Hex.encode [x01; x02]) = Ok sg /\
     CryptoNist.verifySignature (P := P) "hello" sg (Hex.encode [x01; x02])
     = dsa_verify lib "SLH-DSA-SHAKE-256f" (utf8_encode (Platform := P) "hello")
         (dsa_sign lib "SLH-DSA-SHAKE-256f"
            (utf8_encode (Platform := P) "hello") [x01; x02]) [x01; x02]).
Proof.
  cbv zeta. split; [split; reflexivity|].
  apply (verifySignature_of_signMessage (TestPlatform.platform [x07])
           (TestPlatform.pqc [x07]) "hello" [x01; x02] [x01; x02]);
    reflexivity.
Defined.

(** X22.  In the hybrid version, with a library that verifies what it signs
    under the Dilithium key pair it draws: a message signed with the
    private key of [generateDilithiumKeypair] is verified under its
    public key. *)
Theorem hybrid_sign_then_verify (P : Platform) (lib : PQC) (message : string) :
  wasm_simd = true -> wasm_init = Ok lib ->
  signs_correctly lib "Dilithium" ->
  exists kp sg,
    CryptoHybrid.generateDilithiumKeypair = Ok kp /\
    CryptoHybrid.signMessage message (privateKey kp) = Ok sg /\
    CryptoHybrid.verifySignature message sg (publicKey kp) = Ok true.
Proof.
  intros Hs Hi Hlaw.
  unfold CryptoHybrid.generateDilithiumKeypair, CryptoHybrid.signMessage,
    CryptoHybrid.verifySignature, CryptoHybrid.pqcInit.
  rewrite Hs, Hi. cbn [negb bind].
  specialize (Hlaw (utf8_encode message)).
  destruct (kemKeypair lib "Dilithium") as [pk sk]. cbn [fst snd] in Hlaw.
  do 2 eexists. split; [reflexivity|]. split; [reflexivity|].
  cbn [publicKey privateKey]. now rewrite !hex_decode_encode.
Qed.

Lemma test_pqc_signs_correctly (alg : string) :
  signs_correctly (TestPlatform.pqc []) alg.
Proof.
  intros m. cbn. rewrite app_nil_r. now rewrite bytes_eqb_refl.
Qed.

Lemma hybrid_sign_then_verify_witness :
  (wasm_simd (Platform := TestPlatform.platform []) = true /\
   wasm_init (Platform := TestPlatform.platform []) = Ok (TestPlatform.pqc []) /\
   signs_correctly (TestPlatform.pqc []) "Dilithium") /\
  exists kp sg,
    CryptoHybrid.generateDilithiumKeypair (P := TestPlatform.platform []) = Ok kp /\
    CryptoHybrid.signMessage (P := TestPlatform.platform []) "hello"
      (privateKey kp) = Ok sg /\
    CryptoHybrid.verifySignature (P := TestPlatform.platform []) "hello" sg
      (publicKey kp) = Ok true.
Proof.
  split; [split; [reflexivity|split; [reflexivity|]];
          apply test_pqc_signs_correctly|].
  apply (hybrid_sign_then_verify (TestPlatform.platform [])
           (TestPlatform.pqc []) "hello");
    [reflexivity|reflexivity|apply test_pqc_signs_correctly].
Defined.

(** * Further properties of the message list *)

Lemma onmessage_gate_witness :
  let f := MessageList.frame TestChannel.envelope "alice" in
  MessageList.onmessage (C := TestChannel.permissive) TestChannel.bob 1 f
    TestChannel.empty <> TestChannel.empty /\
  exists data c p,
    Json.parse f = Ok data /\
    Json.get data "event" = Ok (Some (JString "MessageSent")) /\
    Json.get data "encrypted_content" = Ok (Some (JString c)) /\
    existsb (fun msg => String.eqb c (MessageList.content msg))
      (MessageList.messagesRef TestChannel.empty) = false /\
    verifyZKProof (Crypto := TestChannel.permissive) c None = true /\
    decryptAES (Crypto := TestChannel.permissive) c
      (Storage.sessionKey TestChannel.bob) = Ok p /\
    exists s,
      MessageList.onmessage (C := TestChannel.permissive) TestChannel.bob 1 f
        TestChannel.empty
      = MessageList.append_message
          {| MessageList.sender := s; MessageList.content := p;
             MessageList.timestamp := 1 |} TestChannel.empty.
Proof.
  cbv zeta.
  assert (H : MessageList.onmessage (C := TestChannel.permissive)
                TestChannel.bob 1
                (MessageList.frame TestChannel.envelope "alice")
                TestChannel.empty <> TestChannel.empty)
    by (vm_compute; intros H; discriminate H).
  split; [exact H|].
  exact (onmessage_gate (C := TestChannel.permissive) TestChannel.bob 1
           (MessageList.frame TestChannel.envelope "alice")
           TestChannel.empty H).
Defined.

Lemma onmessage_twice_witness :
  let f := MessageList.frame TestChannel.envelope "alice" in
  let data :=
    JObject [("event", JString "MessageSent");
             ("encrypted_content", JString TestChannel.envelope);
             ("sender", JString "alice")] in
  (Json.parse f = Ok data /\
   decryptAES (Crypto := TestChannel.permissive) TestChannel.envelope
     (Storage.sessionKey TestChannel.bob) = Ok "hello" /\
   "hello" <> TestChannel.envelope) /\
  MessageList.messages
    (MessageList.onmessage (C := TestChannel.permissive) TestChannel.bob 2 f
       (MessageList.onmessage (C := TestChannel.permissive) TestChannel.bob 1 f
          TestChannel.empty))
  = MessageList.messages TestChannel.empty
    ++ [ {| MessageList.sender := Some (JString "alice");
            MessageList.content := "hello"; MessageList.timestamp := 1 |};
         {| MessageList.sender := Some (JString "alice");
            MessageList.content := "hello"; MessageList.timestamp := 2 |} ].
Proof.
  cbv zeta.
  assert (Hp : Json.parse (MessageList.frame TestChannel.envelope "alice")
               = Ok (JObject [("event", JString "MessageSent");
                              ("encrypted_content", JString TestChannel.envelope);
                              ("sender", JString "alice")]))
    by (vm_compute; reflexivity).
  assert (Hd : decryptAES (Crypto := TestChannel.permissive) TestChannel.envelope
                 (Storage.sessionKey TestChannel.bob) = Ok "hello")
    by (vm_compute; reflexivity).
  assert (Hne : "hello" <> TestChannel.envelope) by discriminate.
  split; [repeat split; assumption|].
  apply (onmessage_twice (C := TestChannel.permissive) TestChannel.bob 1 2
           (MessageList.frame TestChannel.envelope "alice")
           (JObject [("event", JString "MessageSent");
                     ("encrypted_content", JString TestChannel.envelope);
                     ("sender", JString "alice")])
           TestChannel.envelope "hello" (Some (JString "alice"))
           TestChannel.empty Hp);
    try reflexivity; assumption.
Defined.

Section Views.
Import MessageList.
Context {C : Crypto}.

Lemma receive_cases (user : Storage.UserProfile) (now : Z)
    (event_data : string) (v : View) :
  receive user now event_data v = Ok v \/
  (exists e, receive user now event_data v = Throw e) \/
  exists s p,
    receive user now event_data v
    = Ok (append_message {| sender := s; content := p; timestamp := now |} v).
Proof.
  unfold receive.
  destruct (Json.parse event_data) as [data|]; cbn [bind]; [|right; left; eauto].
  destruct (Json.get data "event") as [ev|]; cbn [bind]; [|right; left; eauto].
  destruct (is_string ev "MessageSent"); [|now left].
  destruct (Json.get data "encrypted_content") as [ec|]; cbn [bind];
    [|right; left; eauto].
  destruct (existsb _ (messagesRef v)); [now left|].
  destruct (as_string ec) as [c|]; cbn [bind]; [|right; left; eauto].
  destruct (verifyZKProof c None); cbn [negb]; [|now left].
  destruct (decryptAES c (Storage.sessionKey user)) as [p|]; cbn [bind];
    [|right; left; eauto].
  destruct (Json.get data "sender") as [s|]; cbn [bind]; [|right; left; eauto].
  right; right. eauto.
Qed.

Lemma fetch_cases (user : option Storage.UserProfile) (now : Z)
    (response : result json) (v : View) :
  fetch user now response v = Ok v \/
  (exists e, fetch user now response v = Throw e) \/
  exists p,
    user <> None /\
    fetch user now response v
    = Ok (append_message
            {| sender := Some (JString "You"); content := p; timestamp := now |} v).
Proof.
  unfold fetch.
  destruct user as [u|]; cbn [bind]; [|right; left; eauto].
  destruct response as [r|]; cbn [bind]; [|right; left; eauto].
  destruct (Json.get r "encrypted_content") as [ec|]; cbn [bind];
    [|right; left; eauto].
  destruct (as_string ec) as [c|]; cbn [bind]; [|right; left; eauto].
  destruct (verifyZKProof c None); cbn [negb]; [|now left].
  destruct (decryptAES c (Storage.sessionKey u)) as [p|]; cbn [bind];
    [|right; left; eauto].
  right; right. exists p. split; [discriminate|reflexivity].
Qed.

End Views.

(** X25.  Whatever the crypto module and whatever the frame, [onmessage] only
    ever adds to the list: it leaves the view as it was or adds one
    message at the end, stamped with the time of arrival; the ref keeps
    mirroring the list, and [loading] is not touched. *)
Theorem onmessage_appends_at_most_one
    (C : Crypto) (user : Storage.UserProfile) (now : Z)
    (event_data : string) (v : MessageList.View) :
  MessageList.messagesRef v = MessageList.messages v ->
  let v' := MessageList.onmessage user now event_data v in
  MessageList.messagesRef v' = MessageList.messages v' /\
  MessageList.loading v' = MessageList.loading v /\
  (v' = v \/
   exists s p,
     MessageList.messages v'
     = MessageList.messages v
       ++ [ {| MessageList.sender := s; MessageList.content := p;
               MessageList.timestamp := now |} ]).
Proof.
  intros Href. cbv zeta. unfold MessageList.onmessage.
  destruct (receive_cases user now event_data v)
    as [-> | [[e ->] | (s & p & ->)]].
  - split; [exact Href|]. split; [reflexivity|now left].
  - split; [exact Href|]. split; [reflexivity|now left].
  - split; [reflexivity|]. split; [reflexivity|]. right. now exists s, p.
Qed.

Lemma onmessage_appends_at_most_one_witness :
  let f := MessageList.frame TestChannel.envelope "alice" in
  let v' := MessageList.onmessage (C := TestChannel.permissive)
              TestChannel.bob 1 f TestChannel.empty in
  MessageList.messagesRef TestChannel.empty
  = MessageList.messages TestChannel.empty /\
  MessageList.messagesRef v' = MessageList.messages v' /\
  MessageList.loading v' = MessageList.loading TestChannel.empty /\
  (v' = TestChannel.empty \/
   exists s p,
     MessageList.messages v'
     = MessageList.messages TestChannel.empty
       ++ [ {| MessageList.sender := s; MessageList.content := p;
               MessageList.timestamp := 1 |} ]).
Proof.
  cbv zeta. split; [reflexivity|].
  apply (onmessage_appends_at_most_one TestChannel.permissive TestChannel.bob 1
           (MessageList.frame TestChannel.envelope "alice") TestChannel.empty).
  reflexivity.
Defined.

(** X26.  [fetchMessages] always ends with [loading] off, whatever the contract
    call gives and whether or not the steps after it raise; it adds at
    most one message, from ["You"], and none without a user. *)
Theorem fetchMessages_ends_loading
    (C : Crypto) (user : option Storage.UserProfile) (now : Z)
    (response : result json) (v : MessageList.View) :
  MessageList.messagesRef v = MessageList.messages v ->
  let v' := MessageList.fetchMessages user now response v in
  MessageList.loading v' = false /\
  MessageList.messagesRef v' = MessageList.messages v' /\
  (MessageList.messages v' = MessageList.messages v \/
   exists p,
     user <> None /\
     MessageList.messages v'
     = MessageList.messages v
       ++ [ {| MessageList.sender := Some (JString "You");
               MessageList.content := p; MessageList.timestamp := now |} ]).
Proof.
  intros Href. cbv zeta. unfold MessageList.fetchMessages.
  destruct (fetch_cases user now response (MessageList.set_loading true v))
    as [-> | [[e ->] | (p & Hu & ->)]].
  - split; [reflexivity|]. split; [exact Href|now left].
  - split; [reflexivity|]. split; [exact Href|now left].
  - split; [reflexivity|]. split; [reflexivity|]. right. now exists p.
Qed.

Lemma fetchMessages_ends_loading_witness :
  let response := Ok (JObject [("encrypted_content", JString TestChannel.envelope)]) in
  let v' := MessageList.fetchMessages (C := TestChannel.permissive)
              (Some TestChannel.bob) 1 response TestChannel.empty in
  MessageList.messagesRef TestChannel.empty
  = MessageList.messages TestChannel.empty /\
  MessageList.loading v' = false /\
  MessageList.messagesRef v' = MessageList.messages v' /\
  (MessageList.messages v' = MessageList.messages TestChannel.empty \/
   exists p,
     Some TestChannel.bob <> None /\
     MessageList.messages v'
     = MessageList.messages TestChannel.empty
       ++ [ {| MessageList.sender := Some (JString "You");
               MessageList.content := p; MessageList.timestamp := 1 |} ]).
Proof.
  cbv zeta. split; [reflexivity|].
  apply (fetchMessages_ends_loading TestChannel.permissive (Some TestChannel.bob) 1
           (Ok (JObject [("encrypted_content", JString TestChannel.envelope)]))
           TestChannel.empty).
  reflexivity.
Defined.

(** ** The channel over any sequence of events *)

Section Loop.
Import MessageList.

Lemma live_insert (l : list ReadyState) (i : nat) (s s' : ReadyState) :
  l !! i = Some s ->
  length (List.filter is_live (<[i := s']> l)) + (if is_live s then 1 else 0)
  = length (List.filter is_live l) + (if is_live s' then 1 else 0).
Proof.
  revert i. induction l as [|x l IH]; intros i Hi; [discriminate Hi|].
  destruct i as [|i].
  - injection Hi as ->. cbn [List.filter].
    change (<[0:=s']> (s :: l)) with (s' :: l). cbn [List.filter].
    destruct (is_live s), (is_live s'); cbn [length]; lia.
  - change (<[S i:=s']> (x :: l)) with (x :: <[i:=s']> l).
    cbn [List.filter]. specialize (IH i Hi).
    destruct (is_live x); cbn [length]; lia.
Qed.

Lemma live_connect (ch : Channel) :
  live (connectWebSocket ch) = S (live ch).
Proof.
  unfold live, connectWebSocket. cbn [sockets].
  rewrite List.filter_app, length_app. cbn. lia.
Qed.

Lemma close_balance (i : nat) (ch : Channel) :
  live (close i ch) + timers (close i ch) = live ch + timers ch /\
  live (transport_close i ch) + timers (transport_close i ch)
  = live ch + timers ch.
Proof.
  unfold close, transport_close.
  destruct (sockets ch !! i) as [[| |]|] eqn:Hi; try (split; reflexivity);
    unfold live; cbn [onclose set_state sockets timers];
    pose proof (live_insert (sockets ch) i _ CLOSED Hi) as H; cbn in H;
    split; lia.
Qed.

Lemma handle_balance (e : Event) (ch : Channel) :
  live (handle e ch) + timers (handle e ch) = live ch + timers ch.
Proof.
  destruct e as [i|i|i|]; cbn [handle].
  - unfold transport_open.
    destruct (sockets ch !! i) as [[| |]|] eqn:Hi; try reflexivity.
    unfold live. cbn [onopen set_state sockets timers].
    pose proof (live_insert (sockets ch) i _ OPEN Hi) as H. cbn in H. lia.
  - apply close_balance.
  - apply close_balance.
  - unfold timer_fire. destruct (timers ch) as [|n] eqn:Ht; [now rewrite Ht|].
    rewrite live_connect. unfold live. cbn [connectWebSocket sockets timers]. lia.
Qed.

Lemma run_balance (es : list Event) (ch : Channel) :
  live (run es ch) + timers (run es ch) = live ch + timers ch.
Proof.
  revert ch. induction es as [|e es IH]; intros ch; [reflexivity|].
  cbn [run fold_left]. change (fold_left _ es ?c) with (run es c).
  now rewrite IH, handle_balance.
Qed.

End Loop.

Section Component.
Import MessageList.

Lemma cleanup_balance (w : option nat) (ch : Channel) :
  live (cleanup w ch) + timers (cleanup w ch) = live ch + timers ch.
Proof. destruct w as [i|]; [apply close_balance|reflexivity]. Qed.

Lemma effect_balance (user : option Storage.UserProfile) (ch : Channel) :
  live (effect user ch) + timers (effect user ch)
  = live ch + timers ch + match user with Some _ => 1 | None => 0 end.
Proof.
  destruct user as [u|]; cbn [effect]; [|lia].
  rewrite live_connect. cbn [connectWebSocket timers]. lia.
Qed.

Lemma run_teardown_balance (c : Component) :
  live (run_teardown c) + timers (run_teardown c)
  = live (channel c) + timers (channel c).
Proof.
  unfold run_teardown. destruct (teardown c); [apply cleanup_balance|reflexivity].
Qed.

Lemma play_balance (acts : list Action) (c : Component) :
  live (channel (play acts c)) + timers (channel (play acts c))
  = live (channel c) + timers (channel c) + effect_runs (mounted c) acts.
Proof.
  revert c. induction acts as [|a acts IH]; intros c; [cbn; lia|].
  cbn [play fold_left]. change (fold_left _ acts ?x) with (play acts x).
  rewrite IH. destruct a as [user| |i|i|]; cbn [act effect_runs].
  - destruct (mounted c) eqn:Hm.
    + cbn [channel mounted]. rewrite effect_balance, run_teardown_balance.
      destruct user; lia.
    + rewrite Hm. destruct user; lia.
  - destruct (mounted c) eqn:Hm.
    + cbn [channel mounted]. rewrite run_teardown_balance. lia.
    + rewrite Hm. lia.
  - cbn [with_channel channel mounted].
    pose proof (handle_balance (TransportOpen i) (channel c)) as H.
    cbn [handle] in H. lia.
  - cbn [with_channel channel mounted].
    pose proof (handle_balance (TransportClose i) (channel c)) as H.
    cbn [handle] in H. lia.
  - cbn [with_channel channel mounted].
    pose proof (handle_balance TimerFire (channel c)) as H.
    cbn [handle] in H. lia.
Qed.

End Component.

(** X27.  Every run of the effect with a user starts a connection that is
    never given up.  Whatever happens to the component (renders with
    another user, the unmount, sockets opened and closed by the
    transport, timers running), the sockets that are connecting or open
    and the pending reconnect timers are together as many as the runs of
    the effect with a user: the cleanups and the unmount, which close a
    socket, take none away, and each new run adds one. *)
Theorem each_effect_run_keeps_a_connection
    (user : option Storage.UserProfile) (acts : list MessageList.Action) :
  let c := MessageList.play acts (MessageList.mount user) in
  MessageList.live (MessageList.channel c)
  + MessageList.timers (MessageList.channel c)
  = match user with Some _ => 1 | None => 0 end + MessageList.effect_runs true acts.
Proof.
  cbv zeta. rewrite play_balance.
  cbn [MessageList.mount MessageList.channel MessageList.mounted].
  rewrite effect_balance. cbn. lia.
Qed.

(** Bob's component connects; the user changes to Carol, and the cleanup
    of the first run, whose [ws] is [null], closes nothing: two sockets
    are open.  At the unmount the cleanup of the second run closes the
    first socket, and its timer opens a third. *)
Example component_run :
  let carol := {| Storage.userId := "carol"; Storage.sessionKey := "";
                  Storage.starknetAddress := "" |} in
  let c1 := MessageList.play
              [MessageList.SocketOpens 0; MessageList.Rerender (Some carol);
               MessageList.SocketOpens 1]
              (MessageList.mount (Some TestChannel.bob)) in
  let c2 := MessageList.play [MessageList.Unmount; MessageList.TimerRuns] c1 in
  MessageList.sockets (MessageList.channel c1)
  = [MessageList.OPEN; MessageList.OPEN] /\
  MessageList.teardown c1 = Some (Some 0) /\
  MessageList.sockets (MessageList.channel c2)
  = [MessageList.CLOSED; MessageList.OPEN; MessageList.CONNECTING] /\
  MessageList.timers (MessageList.channel c2) = 0.
Proof. repeat split. Qed.

Section Subscription.
Import MessageList.

Lemma lookup_set_state (i j : nat) (s : ReadyState) (ch : Channel) :
  sockets (set_state i s ch) !! j
  = if decide (i = j)
    then (if decide (i < length (sockets ch)) then Some s else None)
    else sockets ch !! j.
Proof.
  cbn [set_state sockets]. destruct (decide (i = j)) as [->|Hne].
  - destruct (decide (j < length (sockets ch))) as [Hlt|Hge].
    + now apply list_lookup_insert_eq.
    + rewrite list_insert_ge by lia. apply lookup_ge_None. lia.
  - now apply list_lookup_insert_ne.
Qed.

Lemma close_subscribed (i : nat) (ch : Channel) :
  subscribed_on_open ch -> subscribed_on_open (close i ch).
Proof.
  intros (Hnd & Hin & Hopen & Hsub). unfold close.
  assert (Hgoal : forall s0, sockets ch !! i = Some s0 ->
            subscribed_on_open (onclose (set_state i CLOSED ch))).
  { intros s0 Hi.
    assert (Hlt : i < length (sockets ch)) by (now apply lookup_lt_Some in Hi).
    unfold subscribed_on_open, subscribed.
    cbn [onclose sent]. change (sockets (onclose ?c)) with (sockets c).
    split; [exact Hnd|]. split; [|split; [|exact Hsub]].
    - intros j Hj. rewrite lookup_set_state.
      destruct (decide (i = j)); [|now apply Hin].
      destruct (decide (i < length (sockets ch))); [now right|lia].
    - intros j Hj. rewrite lookup_set_state in Hj.
      destruct (decide (i = j)); [|now apply Hopen].
      destruct (decide (i < length (sockets ch))); discriminate. }
  destruct (sockets ch !! i) as [[| |]|] eqn:Hi;
    [now apply (Hgoal CONNECTING) | now apply (Hgoal OPEN) | easy | easy].
Qed.

Lemma handle_subscribed (e : Event) (ch : Channel) :
  subscribed_on_open ch -> subscribed_on_open (handle e ch).
Proof.
  intros Hinv. destruct e as [i|i|i|]; cbn [handle].
  - destruct Hinv as (Hnd & Hin & Hopen & Hsub). unfold transport_open.
    destruct (sockets ch !! i) as [[| |]|] eqn:Hi;
      try (repeat split; assumption).
    assert (Hlt : i < length (sockets ch)) by (now apply lookup_lt_Some in Hi).
    assert (Hfresh : ~ In i (subscribed ch)).
    { intros Hj. destruct (Hin i Hj) as [H|H]; congruence. }
    unfold subscribed_on_open, subscribed.
    cbn [onopen sent]. change (sockets (onopen i ?c)) with (sockets c).
    rewrite map_app. cbn [map fst].
    split; [|split; [|split]].
    + apply NoDup_app. split; [exact Hnd|]. split; [|apply NoDup_singleton].
      intros j Hj Hj'. apply list_elem_of_singleton in Hj'. subst j.
      apply Hfresh. now apply list_elem_of_In.
    + intros j Hj. rewrite lookup_set_state.
      apply in_app_iff in Hj as [Hj|[<-|[]]].
      * destruct (decide (i = j)) as [->|]; [contradiction|now apply Hin].
      * destruct (decide (i = i)); [|congruence].
        destruct (decide (i < length (sockets ch))); [now left|lia].
    + intros j Hj. rewrite lookup_set_state in Hj. apply in_app_iff.
      destruct (decide (i = j)) as [->|]; [right; now left|].
      left. now apply Hopen.
    + intros x Hx. apply in_app_iff in Hx as [Hx|[<-|[]]];
        [now apply Hsub|reflexivity].
  - now apply close_subscribed.
  - now apply close_subscribed.
  - destruct Hinv as (Hnd & Hin & Hopen & Hsub). unfold timer_fire.
    destruct (timers ch) as [|n]; [repeat split; assumption|].
    unfold subscribed_on_open, subscribed. cbn [connectWebSocket sent sockets].
    split; [exact Hnd|]. split; [|split; [|exact Hsub]].
    + intros j Hj. specialize (Hin j Hj).
      assert (Hlt : j < length (sockets ch))
        by (destruct Hin as [H|H]; now apply lookup_lt_Some in H).
      now rewrite lookup_app_l.
    + intros j Hj. apply Hopen.
      destruct (decide (j < length (sockets ch))) as [Hlt|Hge].
      * now rewrite lookup_app_l in Hj.
      * rewrite lookup_app_r in Hj by lia.
        destruct (j - length (sockets ch)) as [|k]; cbn in Hj; discriminate.
Qed.

Lemma effect_subscribed (user : option Storage.UserProfile) :
  subscribed_on_open (effect user initial).
Proof.
  unfold subscribed_on_open, subscribed.
  destruct user; cbn; (split; [constructor|]);
    (split; [intros i []|]); (split; [|intros x []]).
  - intros [|i] H; cbn in H; discriminate.
  - intros i H. rewrite lookup_nil in H. discriminate.
Qed.

End Subscription.

(** X28.  Whatever happens to the channel, each socket is sent the
    subscription once, when it opens, and nothing else: no socket that is
    still connecting has been written to, every open socket has
    subscribed, and no socket has subscribed twice. *)
Theorem every_socket_subscribes_once
    (user : option Storage.UserProfile) (es : list MessageList.Event) :
  let ch := MessageList.run es (MessageList.effect user MessageList.initial) in
  NoDup (MessageList.subscribed ch) /\
  (forall i, In i (MessageList.subscribed ch) ->
     MessageList.sockets ch !! i = Some MessageList.OPEN \/
     MessageList.sockets ch !! i = Some MessageList.CLOSED) /\
  (forall i, MessageList.sockets ch !! i = Some MessageList.OPEN ->
     In i (MessageList.subscribed ch)) /\
  (forall x, In x (MessageList.sent ch) -> snd x = MessageList.subscription).
Proof.
  cbv zeta.
  change (MessageList.subscribed_on_open
            (MessageList.run es (MessageList.effect user MessageList.initial))).
  generalize (effect_subscribed user).
  generalize (MessageList.effect user MessageList.initial) as ch.
  induction es as [|e es IH]; intros ch Hinv; [exact Hinv|].
  cbn [MessageList.run fold_left]. apply IH. now apply handle_subscribed.
Qed.

(** * The message input *)

Example trim_examples :
  MessageInput.trim "  hello world  " = "hello world" /\
  MessageInput.trim (Json.code_unit 160 +:+ "a b" +:+ Json.code_unit 8232
                     +:+ Json.code_unit 65279 +:+ " ") = "a b" /\
  MessageInput.trim (Json.code_unit 233 +:+ " ") = Json.code_unit 233 /\
  MessageInput.trim (Json.code_unit 8203 +:+ "a") = Json.code_unit 8203 +:+ "a".
Proof. repeat split; reflexivity. Qed.

Section Submit.
Import MessageInput.

Lemma trimStart_blank (s : string) : blank s = true -> trimStart s = "".
Proof.
  induction s as [|a r IH]; [reflexivity|].
  cbn [blank trimStart]. intros H. apply andb_true_iff in H as [Ha Hr].
  rewrite Ha. now apply IH.
Qed.

Lemma trim_blank (s : string) : blank s = true -> trim s = "".
Proof. intros H. unfold trim. now rewrite (trimStart_blank s H). Qed.

End Submit.

(** X29.  [handleSubmit] hands the parent at most one content, the trimmed
    message, and never an empty one; it does so exactly when the trimmed
    message is not empty and no submission is under way; it leaves
    [sending] as it found it, and clears the input exactly when the
    parent took the content without raising. *)
Theorem handleSubmit_sends_trimmed_once
    (onSendMessage : string -> result unit) (st : MessageInput.Input) :
  let out := (MessageInput.handleSubmit onSendMessage st).2 in
  let st' := (MessageInput.handleSubmit onSendMessage st).1 in
  let ready := MessageInput.trim (MessageInput.message st) <> ""
               /\ MessageInput.sending st = false in
  (ready -> out = [MessageInput.trim (MessageInput.message st)]) /\
  (~ ready -> out = [] /\ st' = st) /\
  ~ In "" out /\
  MessageInput.sending st' = MessageInput.sending st /\
  (ready ->
   MessageInput.message st'
   = match onSendMessage (MessageInput.trim (MessageInput.message st)) with
     | Ok _ => ""
     | Throw _ => MessageInput.message st
     end).
Proof.
  cbv zeta. unfold MessageInput.handleSubmit.
  destruct (String.eqb_spec (MessageInput.trim (MessageInput.message st)) "")
    as [He|Hne]; cbn [orb fst snd].
  - split; [intros [H _]; contradiction|].
    split; [easy|]. split; [easy|]. split; [reflexivity|].
    intros [H _]; contradiction.
  - destruct (MessageInput.sending st) eqn:Hs; cbn [fst snd].
    + split; [intros [_ H]; discriminate|].
      split; [easy|]. split; [easy|]. split; [now rewrite Hs|].
      intros [_ H]; discriminate.
    + split; [reflexivity|]. split; [intros H; now destruct H|].
      split; [intros [H|[]]; congruence|].
      split.
      * now destruct (onSendMessage _).
      * intros _. now destruct (onSendMessage _).
Qed.

Lemma handleSubmit_sends_trimmed_once_witness :
  let st := {| MessageInput.message := "  hello  ";
               MessageInput.isFocused := true;
               MessageInput.sending := false;
               MessageInput.showSecurityInfo := false |} in
  let accept := fun _ : string => Ok tt in
  (MessageInput.trim (MessageInput.message st) <> ""
   /\ MessageInput.sending st = false) /\
  (MessageInput.handleSubmit accept st).2 = ["hello"] /\
  MessageInput.message (MessageInput.handleSubmit accept st).1 = "".
Proof.
  cbv zeta.
  assert (H : MessageInput.trim "  hello  " <> "" /\ false = false)
    by (split; [vm_compute; intros H; discriminate H|reflexivity]).
  split; [exact H|].
  pose proof (handleSubmit_sends_trimmed_once (fun _ : string => Ok tt)
                {| MessageInput.message := "  hello  ";
                   MessageInput.isFocused := true;
                   MessageInput.sending := false;
                   MessageInput.showSecurityInfo := false |})
    as (Hout & _ & _ & _ & Hmsg).
  split; [exact (Hout H)|exact (Hmsg H)].
Defined.

(** X30.  A message made of spaces, tabs and line breaks only is not sent:
    [handleSubmit] hands nothing to the parent and leaves the state as it
    is. *)
Theorem handleSubmit_blank_message
    (onSendMessage : string -> result unit) (st : MessageInput.Input) :
  MessageInput.blank (MessageInput.message st) = true ->
  MessageInput.handleSubmit onSendMessage st = (st, []).
Proof.
  intros H. unfold MessageInput.handleSubmit.
  now rewrite (trim_blank _ H).
Qed.

Lemma handleSubmit_blank_message_witness :
  let st := {| MessageInput.message :=
                 String (ascii_of_nat 32)
                   (String (ascii_of_nat 9) (String (ascii_of_nat 10) ""));
               MessageInput.isFocused := true;
               MessageInput.sending := false;
               MessageInput.showSecurityInfo := false |} in
  MessageInput.blank (MessageInput.message st) = true /\
  MessageInput.handleSubmit (fun _ => Throw LibraryError) st = (st, []).
Proof.
  cbv zeta. split; [reflexivity|].
  apply handleSubmit_blank_message. reflexivity.
Defined.
